(** * NewRelics-POC: the instrumented HTTP service of [main.go]

    The program is a gin router with one monitoring middleware and fifteen
    handlers, each a few calls into the monitoring SDK.  The handlers, the
    routing table and [main] are embedded from [main.go]; the SDK, the router
    framework and the clock are collaborators of the program and are given a
    small executable model that follows the specification (sections 3 to 5). *)

From Stdlib Require Import String Ascii List Arith Lia Bool.
From stdpp Require Import base option gmap strings list.

Open Scope string_scope.
Open Scope list_scope.

(** ** Data model *)

(** Values of the SDK's untyped attribute maps ([map[string]interface{}]). *)
Inductive AttrVal :=
| VStr (s : string)
| VInt (n : Z)
| VBool (b : bool)
| VFloat (literal : string).

(** The Go [error] values the handlers build or receive. *)
Inductive GoError :=
| ErrorsNew (msg : string)
| NrError (message class : string) (attributes : gmap string AttrVal)
| NetError (msg : string).

Definition Error_string (e : GoError) : string :=
  match e with
  | ErrorsNew m => m
  | NrError m _ _ => m
  | NetError m => m
  end.

(** [newrelic.MessageDestinationType]. *)
Inductive MessageDestinationType := MessageQueue | MessageTopic | MessageExchange.

(** The three segment types the handlers use. *)
Inductive SegKind :=
| KBasic (name : string)
| KMessage (library : string) (destinationType : MessageDestinationType)
           (destinationName : string)
| KExternal (method url : string).

(** A segment that is open: identifier, start time, enclosing open segment. *)
Record OpenSeg := mkOpen { os_id : nat; os_start : nat; os_parent : option nat }.

(** A recorded interval. *)
Record ClosedSeg := mkClosed {
  cs_id : nat; cs_kind : SegKind; cs_start : nat; cs_end : nat; cs_parent : option nat }.

(** The request Context of the specification: a name, attributes, noticed
    errors, the open segments (most recent first), the recorded segments (in
    the order they were closed) and the ignore mark. *)
Record Txn := mkTxn {
  txn_name : string;
  txn_attrs : gmap string AttrVal;
  txn_errors : list GoError;
  txn_open : list OpenSeg;
  txn_closed : list ClosedSeg;
  txn_ignored : bool;
  txn_next_seg : nat }.

(** The monitoring subsystem: the live Contexts by identity, the next fresh
    identity, the custom events and metrics handed over, the reporting sink,
    and the browser loader the collector supplied, if any. *)
Record Agent := mkAgent {
  ag_txns : gmap nat Txn;
  ag_next : nat;
  ag_events : list (string * gmap string AttrVal);
  ag_metrics : list (string * nat);
  ag_sink : list (nat * Txn);
  ag_browser : option string }.

(** [newrelic.SegmentStartTime]: the token [StartSegmentNow] returns.  The
    zero token belongs to no transaction. *)
Record SegmentStartTime := mkStart { st_txn : option nat; st_id : nat }.

Record Segment := mkSegment { seg_StartTime : SegmentStartTime; seg_Name : string }.

Record MessageProducerSegment := mkMessageProducerSegment {
  mps_StartTime : SegmentStartTime;
  mps_Library : string;
  mps_DestinationType : MessageDestinationType;
  mps_DestinationName : string }.

Record Request := mkRequest { rq_method : string; rq_url : string }.

Record ExternalSegment := mkExternalSegment {
  es_StartTime : SegmentStartTime; es_Request : Request }.

(** [*newrelic.BrowserTimingHeader], holding the script it renders; [None]
    is the nil pointer. *)
Record BrowserTimingHeader := mkHeader { hdr_script : string }.

(** The SDK calls a handler makes on a transaction reference. *)
Inductive ApiOp :=
| OpSetName | OpAddAttribute | OpNoticeError | OpIgnore | OpApplication
| OpRecordCustomEvent | OpRecordCustomMetric | OpBrowserTimingHeader.

(** The routes [main] registers, by handler. *)
Inductive Route :=
| R_txn | R_test_connection | R_version | R_notice_error
| R_notice_error_with_attributes | R_custom_event | R_set_name
| R_add_attribute | R_ignore | R_segments | R_external | R_custommetric
| R_browser | R_async | R_message.

(** What an execution leaves in its log. *)
Inductive Event :=
| EvAttach (id : nat)
| EvFinalize (id : nat)
| EvHandlerEnter
| EvHandlerExit
| EvRetrieve (found : option nat)
| EvApi (op : ApiOp) (recv : option nat)
| EvApp (op : ApiOp) (app : option unit)
| EvSegStart (s : SegmentStartTime)
| EvSegEnd (s : SegmentStartTime)
| EvOutbound (url : string).

(** The state one request runs against. [scope] is the binding of the
    request scope (the gin context and the request's [context.Context]). *)
Record World := mkWorld {
  clock : nat;
  agent : Agent;
  scope : option nat;
  status : nat;
  body : string;
  trace : list Event }.

(** What a request reads from outside the program. *)
Record Env := mkEnv {
  req_method : string;
  req_path : string;
  rand_source : nat;
  req_header : list (string * list string);
  http_result : string + GoError;
  sched : list bool;
  nr_Version : string }.

(** ** Field updates *)

Definition set_clock (n : nat) (w : World) : World :=
  mkWorld n (agent w) (scope w) (status w) (body w) (trace w).
Definition set_agent (a : Agent) (w : World) : World :=
  mkWorld (clock w) a (scope w) (status w) (body w) (trace w).
Definition set_scope (s : option nat) (w : World) : World :=
  mkWorld (clock w) (agent w) s (status w) (body w) (trace w).
Definition set_status (n : nat) (w : World) : World :=
  mkWorld (clock w) (agent w) (scope w) n (body w) (trace w).
Definition set_body (b : string) (w : World) : World :=
  mkWorld (clock w) (agent w) (scope w) (status w) b (trace w).
Definition log (e : Event) (w : World) : World :=
  mkWorld (clock w) (agent w) (scope w) (status w) (body w) (trace w ++ [e]).

Definition set_txns (m : gmap nat Txn) (a : Agent) : Agent :=
  mkAgent m (ag_next a) (ag_events a) (ag_metrics a) (ag_sink a) (ag_browser a).

(** ** Results and the handler monad *)

(** A run returns, panics, or never returns. *)
Inductive Result (A : Type) :=
| Ok (a : A) (w : World)
| Panic (msg : string) (w : World)
| Blocked (w : World).
Arguments Ok {A} a w.
Arguments Panic {A} msg w.
Arguments Blocked {A} w.

Definition M (A : Type) : Type := World -> Result A.

Definition ret {A} (a : A) : M A := fun w => Ok a w.

Definition bind {A B} (m : M A) (k : A -> M B) : M B := fun w =>
  match m w with
  | Ok a w' => k a w'
  | Panic msg w' => Panic msg w'
  | Blocked w' => Blocked w'
  end.

Notation "'let*' x ':=' c1 'in' c2" := (bind c1 (fun x => c2))
  (at level 10, x name, c1 at level 100, c2 at level 200).
Notation "c1 '>>' c2" := (bind c1 (fun _ => c2))
  (at level 90, right associativity).

(** Go's [defer]: [cleanup] runs when [rest] returns and also when it
    panics; the panic then goes on. *)
Definition defer {A} (cleanup : M unit) (rest : M A) : M A := fun w =>
  match rest w with
  | Ok a w' =>
      match cleanup w' with
      | Ok _ w'' => Ok a w''
      | Panic msg w'' => Panic msg w''
      | Blocked w'' => Blocked w''
      end
  | Panic msg w' =>
      match cleanup w' with
      | Ok _ w'' => Panic msg w''
      | Panic msg' w'' => Panic msg' w''
      | Blocked w'' => Blocked w''
      end
  | Blocked w' => Blocked w'
  end.

Definition emit (e : Event) : M unit := fun w => Ok tt (log e w).

Definition world_of {A} (r : Result A) : World :=
  match r with Ok _ w => w | Panic _ w => w | Blocked w => w end.

(** Go's [for _, x := range xs]. *)
Fixpoint for_range {A} (xs : list A) (f : A -> M unit) : M unit :=
  match xs with
  | [] => ret tt
  | x :: xs' => f x >> for_range xs' f
  end.

(** [p != nil] on a pointer. *)
Definition notnil {A} (p : option A) : bool :=
  match p with Some _ => true | None => false end.

(** ** The monitoring SDK *)

(** Modelled from the spec: the monitoring SDK ([newrelic], [nrgin]) is an
    external collaborator and is not part of [main.go].  Section 4 gives its
    contract: every operation on a Context is a single mutation, last write
    wins, and an absent or invalid Context makes the operation a no-op that
    raises nothing.  [None] is the nil [*Transaction]. *)
Definition on_txn (f : Txn -> Txn) (txn : option nat) (a : Agent) : Agent :=
  match txn with
  | Some id =>
      match ag_txns a !! id with
      | Some t => set_txns (<[id := f t]> (ag_txns a)) a
      | None => a
      end
  | None => a
  end.

Definition lookup_txn (txn : option nat) (a : Agent) : option Txn :=
  match txn with
  | Some id => ag_txns a !! id
  | None => None
  end.

Definition api (op : ApiOp) (txn : option nat) (f : Txn -> Txn) : M unit :=
  fun w => Ok tt (log (EvApi op txn) (set_agent (on_txn f txn (agent w)) w)).

Definition with_name (n : string) (t : Txn) : Txn :=
  mkTxn n (txn_attrs t) (txn_errors t) (txn_open t) (txn_closed t)
        (txn_ignored t) (txn_next_seg t).
Definition with_attr (k : string) (v : AttrVal) (t : Txn) : Txn :=
  mkTxn (txn_name t) (<[k := v]> (txn_attrs t)) (txn_errors t) (txn_open t)
        (txn_closed t) (txn_ignored t) (txn_next_seg t).
Definition with_error (e : GoError) (t : Txn) : Txn :=
  mkTxn (txn_name t) (txn_attrs t) (txn_errors t ++ [e]) (txn_open t)
        (txn_closed t) (txn_ignored t) (txn_next_seg t).
Definition with_ignore (t : Txn) : Txn :=
  mkTxn (txn_name t) (txn_attrs t) (txn_errors t) (txn_open t) (txn_closed t)
        true (txn_next_seg t).

Definition SetName (txn : option nat) (name : string) : M unit :=
  api OpSetName txn (with_name name).
Definition AddAttribute (txn : option nat) (k : string) (v : AttrVal) : M unit :=
  api OpAddAttribute txn (with_attr k v).
Definition NoticeError (txn : option nat) (e : GoError) : M unit :=
  api OpNoticeError txn (with_error e).
Definition Ignore (txn : option nat) : M unit :=
  api OpIgnore txn with_ignore.

(** Modelled from the spec: [txn.Application()], the application handle,
    nil for a nil or invalid transaction. *)
Definition Application (txn : option nat) : M (option unit) := fun w =>
  Ok (match lookup_txn txn (agent w) with Some _ => Some tt | None => None end)
     (log (EvApi OpApplication txn) w).

Definition RecordCustomEvent (app : option unit) (eventType : string)
    (params : gmap string AttrVal) : M unit := fun w =>
  let a := agent w in
  let a' := match app with
            | Some _ => mkAgent (ag_txns a) (ag_next a)
                          (ag_events a ++ [(eventType, params)])
                          (ag_metrics a) (ag_sink a) (ag_browser a)
            | None => a
            end in
  Ok tt (log (EvApp OpRecordCustomEvent app) (set_agent a' w)).

Definition RecordCustomMetric (app : option unit) (name : string)
    (value : nat) : M unit := fun w =>
  let a := agent w in
  let a' := match app with
            | Some _ => mkAgent (ag_txns a) (ag_next a) (ag_events a)
                          (ag_metrics a ++ [(name, value)])
                          (ag_sink a) (ag_browser a)
            | None => a
            end in
  Ok tt (log (EvApp OpRecordCustomMetric app) (set_agent a' w)).

(** *** Segments (section 4.2) *)

Definition zero_start : SegmentStartTime := mkStart None 0.

Definition push_open (now : nat) (t : Txn) : Txn :=
  mkTxn (txn_name t) (txn_attrs t) (txn_errors t)
        (mkOpen (txn_next_seg t) now (head (os_id <$> txn_open t)) :: txn_open t)
        (txn_closed t) (txn_ignored t) (S (txn_next_seg t)).

(** Modelled from the spec: Begin (section 4.2) records a start timestamp;
    the segment open at that moment is the parent.  Through a nil or
    invalid reference it returns the zero token and records nothing. *)
Definition StartSegmentNow (txn : option nat) : M SegmentStartTime := fun w =>
  let s := match lookup_txn txn (agent w) with
           | Some t => mkStart txn (txn_next_seg t)
           | None => zero_start
           end in
  Ok s (log (EvSegStart s) (set_agent (on_txn (push_open (clock w)) txn (agent w)) w)).

Definition find_open (sid : nat) (t : Txn) : option OpenSeg :=
  List.find (fun o => Nat.eqb (os_id o) sid) (txn_open t).

Definition close_open (k : SegKind) (sid now : nat) (t : Txn) : Txn :=
  match find_open sid t with
  | Some o =>
      mkTxn (txn_name t) (txn_attrs t) (txn_errors t)
            (List.filter (fun o' => negb (Nat.eqb (os_id o') sid)) (txn_open t))
            (txn_closed t ++ [mkClosed sid k (os_start o) now (os_parent o)])
            (txn_ignored t) (txn_next_seg t)
  | None => t
  end.

(** Modelled from the spec: End (section 4.2) records an end timestamp and
    submits the interval to the Context the token came from.  A token that
    names no open segment does nothing. *)
Definition end_segment (k : SegKind) (s : SegmentStartTime) : M unit := fun w =>
  Ok tt (log (EvSegEnd s)
           (set_agent (on_txn (close_open k (st_id s) (clock w)) (st_txn s) (agent w)) w)).

Definition StartSegment (txn : option nat) (name : string) : M Segment :=
  let* st := StartSegmentNow txn in ret (mkSegment st name).

Definition Segment_End (s : Segment) : M unit :=
  end_segment (KBasic (seg_Name s)) (seg_StartTime s).

Definition MessageProducerSegment_End (s : MessageProducerSegment) : M unit :=
  end_segment (KMessage (mps_Library s) (mps_DestinationType s) (mps_DestinationName s))
              (mps_StartTime s).

Definition StartExternalSegment (txn : option nat) (req : Request) : M ExternalSegment :=
  let* st := StartSegmentNow txn in ret (mkExternalSegment st req).

Definition ExternalSegment_End (s : ExternalSegment) : M unit :=
  end_segment (KExternal (rq_method (es_Request s)) (rq_url (es_Request s)))
              (es_StartTime s).

(** *** Browser timing header *)

(** Modelled from the spec: [BrowserTimingHeader()] gives a header when the
    transaction is live and the collector supplied a loader, and nil
    otherwise; [WithTags()] of a nil header is nil (section 4.1: no
    operation raises). *)
Definition header_of (txn : option nat) (a : Agent) : option BrowserTimingHeader :=
  match lookup_txn txn a with
  | Some _ => mkHeader <$> ag_browser a
  | None => None
  end.

Definition BrowserTimingHeader_of (txn : option nat) : M (option BrowserTimingHeader) :=
  fun w => Ok (header_of txn (agent w)) (log (EvApi OpBrowserTimingHeader txn) w).

Definition WithTags (h : option BrowserTimingHeader) : option string :=
  match h with
  | Some h => Some (hdr_script h)
  | None => None
  end.

(** *** Attach, Retrieve, finalize (section 4.1) *)

Definition new_txn (name : string) : Txn := mkTxn name ∅ [] [] [] false 1.

(** Modelled from the spec: Attach (section 4.1) creates a fresh Context and
    binds it to the request scope. *)
Definition Attach (name : string) : M nat := fun w =>
  let a := agent w in
  let id := ag_next a in
  let a' := mkAgent (<[id := new_txn name]> (ag_txns a)) (S id) (ag_events a)
                    (ag_metrics a) (ag_sink a) (ag_browser a) in
  Ok id (log (EvAttach id) (set_scope (Some id) (set_agent a' w))).

(** Modelled from the spec: Retrieve (section 4.1) returns the Context bound
    to the request scope, or absent; [newrelic.FromContext] and
    [nrgin.Transaction] are the two routes to it the handlers use. *)
Definition FromContext : M (option nat) := fun w =>
  Ok (scope w) (log (EvRetrieve (scope w)) w).

Definition nrgin_Transaction : M (option nat) := fun w =>
  Ok (scope w) (log (EvRetrieve (scope w)) w).

(** Modelled from the spec: [txn.End()] finalizes the Context (section 3):
    it leaves the live set and, unless it is marked
    ignored, is handed to the reporting sink. *)
Definition report (id : nat) (a : Agent) : Agent :=
  match ag_txns a !! id with
  | Some t =>
      mkAgent (delete id (ag_txns a)) (ag_next a) (ag_events a) (ag_metrics a)
              (if txn_ignored t then ag_sink a else ag_sink a ++ [(id, t)])
              (ag_browser a)
  | None => a
  end.

Definition Txn_End (txn : option nat) : M unit := fun w =>
  match txn with
  | Some id => Ok tt (log (EvFinalize id) (set_agent (report id (agent w)) w))
  | None => Ok tt w
  end.

(** ** The runtime the handlers use *)

Definition WriteString (s : string) : M unit := fun w =>
  Ok tt (set_body (body w +:+ s) w).

(** Modelled from the spec: time is a logical clock in milliseconds that
    only [time.Sleep] advances. *)
Definition Sleep (ms : nat) : M unit := fun w =>
  Ok tt (set_clock (clock w + ms) w).

(** [rand.Intn(n)]; it panics for [n <= 0]. *)
Definition rand_Intn (env : Env) (n : nat) : M nat := fun w =>
  if Nat.eqb n 0 then Panic "invalid argument to Intn" w
  else Ok (rand_source env mod n) w.

Definition http_NewRequest (method url : string) : Request := mkRequest method url.

(** [http.DefaultClient.Do(req)]: a response body or an error. *)
Definition http_Do (env : Env) (req : Request) : M (string + GoError) :=
  emit (EvOutbound (rq_url req)) >> ret (http_result env).

(** ** Goroutines and [sync.WaitGroup] *)

(** A goroutine is a sequence of atomic actions, each followed by what
    comes next; [WgWait] can run only when the counter is zero. *)
Inductive Thread : Type :=
| Halt
| Act {A : Type} (m : M A) (k : A -> Thread)
| WgWait (k : Thread)
| WgDone (k : Thread).

Definition enabled (wg : nat) (t : Thread) : bool :=
  match t with
  | Halt => false
  | Act _ _ => true
  | WgWait _ => Nat.eqb wg 0
  | WgDone _ => true
  end.

(** One step of a thread that is enabled. *)
Definition step (wg : nat) (t : Thread) : M (Thread * nat) := fun w =>
  match t with
  | Halt => Ok (Halt, wg) w
  | Act m k =>
      match m w with
      | Ok a w' => Ok (k a, wg) w'
      | Panic msg w' => Panic msg w'
      | Blocked w' => Blocked w'
      end
  | WgWait k => Ok (k, wg) w
  | WgDone k =>
      match wg with
      | 0 => Panic "sync: negative WaitGroup counter" w
      | S n => Ok (k, n) w
      end
  end.

(** Modelled from the spec: the scheduling of section 5.  The handler's own
    thread and the goroutine it spawned are interleaved.  The handler
    returns when its thread halts; when both threads can run, the
    next bit of [sched] picks the goroutine ([true]) or the handler
    ([false], also when the bits have run out); when neither can, the
    handler never returns. *)
Fixpoint run_threads (fuel : nat) (sched : list bool) (wg : nat)
    (main goroutine : Thread) : M unit := fun w =>
  match fuel with
  | 0 => Blocked w
  | S fuel' =>
      match main with
      | Halt => Ok tt w
      | _ =>
          let run_main sched' :=
            (let* r := step wg main in
             run_threads fuel' sched' (snd r) (fst r) goroutine) w in
          let run_go sched' :=
            (let* r := step wg goroutine in
             run_threads fuel' sched' (snd r) main (fst r)) w in
          match enabled wg main, enabled wg goroutine with
          | false, false => Blocked w
          | true, false => run_main sched
          | false, true => run_go sched
          | true, true =>
              match sched with
              | true :: sched' => run_go sched'
              | false :: sched' => run_main sched'
              | [] => run_main []
              end
          end
      end
  end.

(** ** The handlers of [main.go] *)

Definition EndpointAccessTransaction (env : Env) : M unit :=
  let* txn := nrgin_Transaction in
  SetName txn "test-txn" >>
  WriteString "test Transaction".

Definition index (env : Env) : M unit :=
  WriteString "hello world".

Definition versionHandler (env : Env) : M unit :=
  WriteString ("New Relic Go Agent Version: " +:+ nr_Version env).

Definition noticeError (env : Env) : M unit :=
  WriteString "noticing an error" >>
  let* txn := FromContext in
  if notnil txn then NoticeError txn (ErrorsNew "my error message") else ret tt.

Definition noticeErrorWithAttributes (env : Env) : M unit :=
  WriteString "noticing an error" >>
  let* txn := FromContext in
  if notnil txn then
    NoticeError txn (NrError "something went very wrong"
                             "errors are aggregated by class"
                             {[ "error no." := VInt 97232 ]})
  else ret tt.

Definition customEvent (env : Env) : M unit :=
  let* txn := FromContext in
  WriteString "recording a custom event" >>
  if notnil txn then
    let* app := Application txn in
    RecordCustomEvent app "my_event_type"
      (<[ "message" := VStr "hello world" ]>
       (<[ "Float" := VFloat "0.603" ]>
        (<[ "Int" := VInt 123 ]>
         {[ "Bool" := VBool true ]})))
  else ret tt.

Definition setName (env : Env) : M unit :=
  WriteString "changing the transaction's name" >>
  let* txn := FromContext in
  if notnil txn then SetName txn "other-name" else ret tt.

Definition addAttribute (env : Env) : M unit :=
  WriteString "adding attributes" >>
  let* txn := FromContext in
  if notnil txn then
    AddAttribute txn "myString" (VStr "hello") >>
    AddAttribute txn "myInt" (VInt 123)
  else ret tt.

Definition ignore (env : Env) : M unit :=
  let* n := rand_Intn env 2 in
  let coinFlip := Nat.eqb 0 n in
  if coinFlip then
    let* txn := FromContext in
    (if notnil txn then Ignore txn else ret tt) >>
    WriteString "ignoring the transaction"
  else
    WriteString "not ignoring the transaction".

Definition segments (env : Env) : M unit :=
  let* txn := FromContext in
  (let* f1 := StartSegment txn "f1" in
   defer (Segment_End f1)
     ((let* f2 := StartSegment txn "f2" in
       defer (Segment_End f2)
         (WriteString "segments!" >>
          Sleep 10)) >>
      Sleep 15)) >>
  Sleep 20.

Definition message (env : Env) : M unit :=
  let* txn := FromContext in
  let* st := StartSegmentNow txn in
  let s := mkMessageProducerSegment st "Library" MessageQueue "Destination name" in
  defer (MessageProducerSegment_End s)
    (Sleep 20 >>
     WriteString "producing a message queue message").

Definition external (env : Env) : M unit :=
  let* txn := FromContext in
  let req := http_NewRequest "GET" "https://api.github.com/users/defunkt" in
  let* es := StartExternalSegment txn req in
  let* r := http_Do env req in
  ExternalSegment_End es >>
  match r with
  | inr err => WriteString (Error_string err)
  | inl resp_Body =>
      (* defer resp.Body.Close() has no effect on the state modelled here *)
      defer (ret tt) (WriteString resp_Body)
  end.

Definition async_goroutine (txn : option nat) : Thread :=
  (* defer wg.Done(); defer newrelic.StartSegment(txn, "async").End() *)
  Act (StartSegment txn "async") (fun s =>
  Act (Sleep 100) (fun _ =>
  Act (Segment_End s) (fun _ =>
  WgDone Halt))).

Definition async_handler (txn : option nat) : Thread :=
  Act (StartSegment txn "wg.Wait") (fun segment =>
  WgWait (
  Act (Segment_End segment) (fun _ =>
  Act (WriteString "done!") (fun _ =>
  Halt)))).

Definition async (env : Env) : M unit :=
  let* txn := FromContext in
  (* wg := &sync.WaitGroup{}; wg.Add(1) *)
  let wg := 0 + 1 in
  run_threads 16 (sched env) wg (async_handler txn) (async_goroutine txn).

Definition customMetric (env : Env) : M unit :=
  let* txn := FromContext in
  for_range (req_header env) (fun kv =>
    for_range (snd kv) (fun v =>
      if notnil txn then
        let* app := Application txn in
        RecordCustomMetric app "HeaderLength" (String.length v)
      else ret tt)) >>
  WriteString "custom metric recorded".

Definition browser (env : Env) : M unit :=
  let* txn := FromContext in
  let* hdr := BrowserTimingHeader_of txn in
  (match WithTags hdr with
   | Some js => WriteString js
   | None => ret tt
   end) >>
  WriteString "browser header page".

(** ** The router *)

(** Modelled from the spec: the request dispatcher (gin) is an external
    collaborator.  A handler function receives the request and [c.Next()],
    the rest of its chain; a route keeps the middleware registered on the
    router at the moment the route is added, followed by its handler. *)
Definition HandlerFunc : Type := Env -> M unit -> M unit.

Record Engine := mkEngine {
  eng_Handlers : list HandlerFunc;
  eng_routes : list (string * string * list HandlerFunc) }.

Definition gin_Logger : HandlerFunc := fun _ next => next.

Definition gin_Recovery : HandlerFunc := fun _ next w =>
  match next w with
  | Panic _ w' => Ok tt (set_status 500 w')
  | r => r
  end.

(** A handler that never calls [c.Next()]: the chain goes on after it. *)
Definition endpoint (h : Env -> M unit) : HandlerFunc := fun env next =>
  emit EvHandlerEnter >> h env >> emit EvHandlerExit >> next.

Definition gin_Default : Engine := mkEngine [gin_Logger; gin_Recovery] [].

Definition Use (mw : HandlerFunc) (r : Engine) : Engine :=
  mkEngine (eng_Handlers r ++ [mw]) (eng_routes r).

Definition GET (path : string) (h : Env -> M unit) (r : Engine) : Engine :=
  mkEngine (eng_Handlers r)
           (eng_routes r ++ [("GET", path, (eng_Handlers r ++ [endpoint h])%list)])%list.

Fixpoint run_chain (chain : list HandlerFunc) (env : Env) : M unit :=
  match chain with
  | [] => ret tt
  | h :: rest => h env (run_chain rest env)
  end.

Definition find_route (method path : string) (r : Engine) : option (list HandlerFunc) :=
  snd <$> List.find (fun rt => String.eqb method (fst (fst rt)) && String.eqb path (snd (fst rt)))
                    (eng_routes r).

Definition notFound : HandlerFunc := fun _ next =>
  (fun w => Ok tt (set_status 404 w)) >> WriteString "404 page not found" >> next.

Definition ServeHTTP (r : Engine) (env : Env) : M unit :=
  match find_route (req_method env) (req_path env) r with
  | Some chain => run_chain chain env
  | None => run_chain (eng_Handlers r ++ [notFound]) env
  end.

(** Modelled from the spec: the monitoring middleware ([nrgin.Middleware])
    wraps the request (section 2): Attach, the rest of the chain, and the
    deferred [txn.End()]. *)
Record NrApp := mkApp { app_name : string; app_license : string; app_dt : bool }.

Definition nrgin_Middleware (app : NrApp) : HandlerFunc := fun env next =>
  let* txn := Attach (req_method env +:+ " " +:+ req_path env) in
  defer (Txn_End (Some txn)) next.

(** ** [main] *)

Inductive ConfigOption :=
| ConfigAppName (name : string)
| ConfigLicense (license : string)
| ConfigDistributedTracerEnabled (enabled : bool).

(** What the process meets at startup: the SDK's answer to
    [NewApplication], and whether the listener can be opened. *)
Record Startup := mkStartup {
  NewApplication : list ConfigOption -> NrApp + GoError;
  listen_error : option GoError }.

(** How [main] ends: the process exits, or it serves [router] for ever. *)
Inductive Process :=
| Exit (code : nat) (stdout : list string)
| Serving (addr : string) (router : Engine).

Definition routes (app : NrApp) : Engine :=
  let router := gin_Default in
  let router := Use (nrgin_Middleware app) router in
  let router := GET "/txn" EndpointAccessTransaction router in
  let router := GET "/test-connection" index router in
  let router := GET "/version" versionHandler router in
  let router := GET "/notice_error" noticeError router in
  let router := GET "/notice_error_with_attributes" noticeErrorWithAttributes router in
  let router := GET "/custom_event" customEvent router in
  let router := GET "/set_name" setName router in
  let router := GET "/add_attribute" addAttribute router in
  let router := GET "/ignore" ignore router in
  let router := GET "/segments" segments router in
  let router := GET "/external" external router in
  let router := GET "/custommetric" customMetric router in
  let router := GET "/browser" browser router in
  let router := GET "/async" async router in
  let router := GET "/message" message router in
  router.

Definition main (s : Startup) : Process :=
  match NewApplication s
          [ConfigAppName "POC";
           ConfigLicense "acb54af7704d14c310b831563bb78b855a01NRAL";
           ConfigDistributedTracerEnabled true] with
  | inr err =>
      (* fmt.Println(err); os.Exit(1) *)
      Exit 1 [Error_string err]
  | inl app =>
      let router := routes app in
      (* router.Run(":8000"); its error, if any, is dropped and main returns *)
      match listen_error s with
      | None => Serving ":8000" router
      | Some _ => Exit 0 []
      end
  end.

(** ** The routing table, by route *)

Definition all_routes : list Route :=
  [R_txn; R_test_connection; R_version; R_notice_error;
   R_notice_error_with_attributes; R_custom_event; R_set_name;
   R_add_attribute; R_ignore; R_segments; R_external; R_custommetric;
   R_browser; R_async; R_message].

Definition path_of (r : Route) : string :=
  match r with
  | R_txn => "/txn"
  | R_test_connection => "/test-connection"
  | R_version => "/version"
  | R_notice_error => "/notice_error"
  | R_notice_error_with_attributes => "/notice_error_with_attributes"
  | R_custom_event => "/custom_event"
  | R_set_name => "/set_name"
  | R_add_attribute => "/add_attribute"
  | R_ignore => "/ignore"
  | R_segments => "/segments"
  | R_external => "/external"
  | R_custommetric => "/custommetric"
  | R_browser => "/browser"
  | R_async => "/async"
  | R_message => "/message"
  end.

Definition handler_of (r : Route) : Env -> M unit :=
  match r with
  | R_txn => EndpointAccessTransaction
  | R_test_connection => index
  | R_version => versionHandler
  | R_notice_error => noticeError
  | R_notice_error_with_attributes => noticeErrorWithAttributes
  | R_custom_event => customEvent
  | R_set_name => setName
  | R_add_attribute => addAttribute
  | R_ignore => ignore
  | R_segments => segments
  | R_external => external
  | R_custommetric => customMetric
  | R_browser => browser
  | R_async => async
  | R_message => message
  end.

(** The text each handler writes, read off its [WriteString] calls. *)
Definition response_text (r : Route) (env : Env) : string :=
  match r with
  | R_txn => "test Transaction"
  | R_test_connection => "hello world"
  | R_version => "New Relic Go Agent Version: " +:+ nr_Version env
  | R_notice_error => "noticing an error"
  | R_notice_error_with_attributes => "noticing an error"
  | R_custom_event => "recording a custom event"
  | R_set_name => "changing the transaction's name"
  | R_add_attribute => "adding attributes"
  | R_ignore =>
      if Nat.eqb 0 (rand_source env mod 2) then "ignoring the transaction"
      else "not ignoring the transaction"
  | R_segments => "segments!"
  | R_external =>
      match http_result env with
      | inl resp_Body => resp_Body
      | inr err => Error_string err
      end
  | R_custommetric => "custom metric recorded"
  | R_browser => "browser header page"
  | R_async => "done!"
  | R_message => "producing a message queue message"
  end.

(** The browser handler puts the timing script, when it has one, in front of
    its text. *)
Definition timing_script (r : Route) (w : World) : string :=
  match r with
  | R_browser =>
      match WithTags (header_of (scope w) (agent w)) with
      | Some js => js
      | None => EmptyString
      end
  | _ => EmptyString
  end.

Definition chain_of (nr : NrApp) (r : Route) : list HandlerFunc :=
  [gin_Logger; gin_Recovery; nrgin_Middleware nr; endpoint (handler_of r)].

(** A clean start: no Context, nothing recorded, an empty response. *)
Definition empty_agent : Agent := mkAgent ∅ 0 [] [] [] None.
Definition init_world : World := mkWorld 0 empty_agent None 200 EmptyString [].

(** Events a handler's own code may leave when the request scope is bound
    to [sc]: no Attach, no finalization, and every Retrieve finds [sc]. *)
Definition inner_event (sc : option nat) (e : Event) : Prop :=
  match e with
  | EvAttach _ | EvFinalize _ | EvHandlerEnter | EvHandlerExit => False
  | EvRetrieve found => found = sc
  | _ => True
  end.

(** ** Scripts of SDK calls *)

(** One mutation of a Context through a reference to it. *)
Inductive Mutation :=
| MSetName (name : string)
| MAddAttribute (k : string) (v : AttrVal)
| MNoticeError (e : GoError)
| MIgnore
| MStartSegment
| MEndSegment (k : SegKind) (sid : nat)
| MSleep (ms : nat).

Definition mutate (txn : option nat) (a : Mutation) : M unit :=
  match a with
  | MSetName n => SetName txn n
  | MAddAttribute k v => AddAttribute txn k v
  | MNoticeError e => NoticeError txn e
  | MIgnore => Ignore txn
  | MStartSegment => StartSegmentNow txn >> ret tt
  | MEndSegment k sid => end_segment k (mkStart txn sid)
  | MSleep ms => Sleep ms
  end.

(** Any use of the SDK: a mutation through some reference, an Attach, or a
    finalization. *)
Inductive Call :=
| CMutate (txn : option nat) (a : Mutation)
| CAttach (name : string)
| CEnd (txn : option nat).

Definition perform (c : Call) : M unit :=
  match c with
  | CMutate txn a => mutate txn a
  | CAttach name => Attach name >> ret tt
  | CEnd txn => Txn_End txn
  end.

Definition run_script (script : list Call) : M unit := for_range script perform.

(** Recorded intervals run forward, and open segments started in the past. *)
Definition seg_ok (now : nat) (t : Txn) : Prop :=
  Forall (fun c => cs_start c <= cs_end c) (txn_closed t) /\
  Forall (fun o => os_start o <= now) (txn_open t).

Definition intervals_ok (w : World) : Prop :=
  map_Forall (fun _ t => seg_ok (clock w) t) (ag_txns (agent w)) /\
  Forall (fun p => Forall (fun c => cs_start c <= cs_end c) (txn_closed (snd p)))
         (ag_sink (agent w)).

(** [Ignore()] has been called on the Context [id], or the Context is gone. *)
Definition ignored_or_gone (id : nat) (a : Agent) : Prop :=
  match ag_txns a !! id with
  | Some t => txn_ignored t = true
  | None => True
  end.

Definition NewApplication_config : list ConfigOption :=
  [ConfigAppName "POC";
   ConfigLicense "acb54af7704d14c310b831563bb78b855a01NRAL";
   ConfigDistributedTracerEnabled true].

(** ** Sample inputs *)

Definition sample_env (path : string) : Env :=
  mkEnv "GET" path 0 [("Accept", ["text/html"; "*/*"])] (inl "{}") [true; false] "3.0.0".

Definition failing_env : Env :=
  mkEnv "GET" "/external" 0 [] (inr (NetError "dial tcp: no such host")) [] "3.0.0".

Definition sample_app : NrApp :=
  mkApp "POC" "acb54af7704d14c310b831563bb78b855a01NRAL" true.

Definition failing_startup : Startup :=
  mkStartup (fun _ => inr (ErrorsNew "license length is not 40")) None.

(** The SDK calls of a request to the message endpoint, as a script. *)
Definition message_script : list Call :=
  [CAttach "GET /message";
   CMutate (Some 0) MStartSegment;
   CMutate (Some 0) (MSleep 20);
   CMutate (Some 0) (MEndSegment (KMessage "Library" MessageQueue "Destination name") 1);
   CEnd (Some 0)].

(** ** Further properties: what they speak of *)

(** How long each handler sleeps, summed along its path. *)
Definition duration (r : Route) : nat :=
  match r with
  | R_segments => 10 + 15 + 20
  | R_message => 20
  | R_async => 100
  | _ => 0
  end.

(** The values of all request headers, in the order the handler ranges over
    them. *)
Definition header_values (env : Env) : list string :=
  flat_map snd (req_header env).

(** The coin of the ignore handler. *)
Definition coinFlip (env : Env) : bool := Nat.eqb 0 (rand_source env mod 2).

(** The monitoring state with more custom metrics handed over. *)
Definition add_metrics (l : list (string * nat)) (a : Agent) : Agent :=
  mkAgent (ag_txns a) (ag_next a) (ag_events a) (ag_metrics a ++ l) (ag_sink a)
          (ag_browser a).

(** The metric the customMetric handler records for one header value. *)
Definition header_metric (v : string) : string * nat := ("HeaderLength", String.length v).

(** Whether the request's Context is marked ignored when the handler is
    done: only the ignore handler marks it, on heads. *)
Definition marks_ignored (r : Route) (env : Env) : bool :=
  match r with
  | R_ignore => coinFlip env
  | _ => false
  end.

(** The open segments of a Context were all started before the next one
    will be: their identifiers are below the next identifier. *)
Definition open_fresh (t : Txn) : Prop :=
  Forall (fun o => os_id o < txn_next_seg t) (txn_open t).

(** How many segments a handler starts. *)
Definition segments_of (r : Route) : nat :=
  match r with
  | R_segments | R_async => 2
  | R_message | R_external => 1
  | _ => 0
  end.

(** A request whose Context already has an open segment when the handler
    is entered, as when a wrapper starts a segment around the handler. *)
Definition wrapped_txn : Txn :=
  mkTxn "EndpointAccessTransaction" ∅ [] [mkOpen 1 0 None] [] false 2.
Definition wrapped_world : World :=
  mkWorld 5 (mkAgent (<[0 := wrapped_txn]> ∅) 1 [] [] [] None) (Some 0) 200 EmptyString [].

(** ** Statements used below *)

(** An event that is a call of [Ignore()] on a Context. *)
Definition is_ignore_call (e : Event) : bool :=
  match e with
  | EvApi OpIgnore (Some _) => true
  | _ => false
  end.

Definition ignore_invoked (evs : list Event) : bool := existsb is_ignore_call evs.

(** The events a run added to the log of [w]. *)
Definition new_events (w w' : World) : list Event := drop (length (trace w)) (trace w').

(** The ignore endpoint as the specification words it: whenever the handler
    has invoked [Ignore()] the Context stays out of the sink and the body
    says "ignoring the transaction", and whenever it has not the body says
    "not ignoring the transaction". *)
Definition ignore_claim_as_stated : Prop :=
  forall env w,
    let w1 := world_of (ignore env w) in
    let w2 := world_of (Txn_End (scope w) w1) in
    (ignore_invoked (new_events w w1) = true ->
       ag_sink (agent w2) = ag_sink (agent w) /\
       body w1 = body w +:+ "ignoring the transaction") /\
    (ignore_invoked (new_events w w1) = false ->
       body w1 = body w +:+ "not ignoring the transaction").

(** A request that meets no Context and whose coin comes up heads. *)
Definition heads_env : Env := mkEnv "GET" "/ignore" 0 [] (inl "{}") [] "3.0.0".


(** An event that names a segment names one of the Context [id]. *)
Definition on_context (id : nat) (e : Event) : Prop :=
  match e with
  | EvSegStart s | EvSegEnd s => st_txn s = Some id
  | _ => True
  end.


(** What a handler leaves behind: the scope and the status as they were, its
    own events only, its text appended to the body and, with no Context in
    scope, the monitoring state untouched. *)
Definition handler_post (r : Route) (env : Env) (w w' : World) (evs : list Event) : Prop :=
  scope w' = scope w /\ status w' = status w /\
  trace w' = trace w ++ evs /\ Forall (inner_event (scope w)) evs /\
  body w' = body w +:+ timing_script r w +:+ response_text r env /\
  (scope w = None -> agent w' = agent w).

(** A step that leaves the response, the clock and the request scope alone
    and, through a nil reference, the monitoring state too. *)
Definition quiet_step (txn : option nat) (w w' : World) (evs : list Event) : Prop :=
  scope w' = scope w /\ status w' = status w /\ body w' = body w /\
  clock w' = clock w /\ trace w' = trace w ++ evs /\
  Forall (inner_event (scope w)) evs /\
  (txn = None -> agent w' = agent w).

(** The timing script of a request the middleware attached a Context to. *)
Definition served_script (r : Route) (w : World) : string :=
  match r with
  | R_browser =>
      match WithTags (mkHeader <$> ag_browser (agent w)) with
      | Some js => js
      | None => EmptyString
      end
  | _ => EmptyString
  end.

(** The world the middleware hands to the rest of the chain. *)
Definition attached (name : string) (w : World) : World :=
  log (EvAttach (ag_next (agent w)))
    (set_scope (Some (ag_next (agent w)))
       (set_agent (mkAgent (<[ag_next (agent w) := new_txn name]> (ag_txns (agent w)))
                           (S (ag_next (agent w))) (ag_events (agent w))
                           (ag_metrics (agent w)) (ag_sink (agent w))
                           (ag_browser (agent w))) w)).

(** * Execution lemmas *)

Lemma append_assoc (a b c : string) : (a +:+ b) +:+ c = a +:+ (b +:+ c).
Proof.
  induction a as [|x a IH]; [reflexivity |].
  change (String x ((a +:+ b) +:+ c) = String x (a +:+ (b +:+ c))).
  by rewrite IH.
Qed.

(** The primitives that touch the map of Contexts, on a world in which the
    Context [id] is live. *)
Section Live.
Variables (c : nat) (m : gmap nat Txn) (n : nat)
          (ev : list (string * gmap string AttrVal)) (me : list (string * nat))
          (sk : list (nat * Txn)) (br : option string)
          (sc : option nat) (st : nat) (b : string) (tr : list Event).
Variables (id : nat) (t : Txn).

Lemma api_live op f :
  api op (Some id) f (mkWorld c (mkAgent (<[id := t]> m) n ev me sk br) sc st b tr)
  = Ok tt (mkWorld c (mkAgent (<[id := f t]> m) n ev me sk br) sc st b
                   (tr ++ [EvApi op (Some id)])).
Proof.
  unfold api, on_txn, log, set_agent, set_txns; cbn.
  rewrite lookup_insert_eq. cbn. by rewrite insert_insert_eq.
Qed.

Lemma StartSegmentNow_live :
  StartSegmentNow (Some id) (mkWorld c (mkAgent (<[id := t]> m) n ev me sk br) sc st b tr)
  = Ok (mkStart (Some id) (txn_next_seg t))
       (mkWorld c (mkAgent (<[id := push_open c t]> m) n ev me sk br) sc st b
                (tr ++ [EvSegStart (mkStart (Some id) (txn_next_seg t))])).
Proof.
  unfold StartSegmentNow, on_txn, lookup_txn, log, set_agent, set_txns; cbn.
  rewrite lookup_insert_eq. cbn. by rewrite insert_insert_eq.
Qed.

Lemma end_segment_live k sid :
  end_segment k (mkStart (Some id) sid)
              (mkWorld c (mkAgent (<[id := t]> m) n ev me sk br) sc st b tr)
  = Ok tt (mkWorld c (mkAgent (<[id := close_open k sid c t]> m) n ev me sk br) sc st b
                   (tr ++ [EvSegEnd (mkStart (Some id) sid)])).
Proof.
  unfold end_segment, on_txn, log, set_agent, set_txns; cbn.
  rewrite lookup_insert_eq. cbn. by rewrite insert_insert_eq.
Qed.

Lemma Txn_End_live :
  Txn_End (Some id) (mkWorld c (mkAgent (<[id := t]> m) n ev me sk br) sc st b tr)
  = Ok tt (mkWorld c (mkAgent (delete id m) n ev me
                              (if txn_ignored t then sk else sk ++ [(id, t)]) br)
                   sc st b (tr ++ [EvFinalize id])).
Proof.
  unfold Txn_End, report, log, set_agent; cbn.
  rewrite lookup_insert_eq. cbn. by rewrite delete_insert_eq.
Qed.

Lemma Application_live :
  Application (Some id) (mkWorld c (mkAgent (<[id := t]> m) n ev me sk br) sc st b tr)
  = Ok (Some tt) (mkWorld c (mkAgent (<[id := t]> m) n ev me sk br) sc st b
                          (tr ++ [EvApi OpApplication (Some id)])).
Proof. unfold Application, lookup_txn, log; cbn. by rewrite lookup_insert_eq. Qed.

Lemma header_of_live :
  header_of (Some id) (mkAgent (<[id := t]> m) n ev me sk br) = mkHeader <$> br.
Proof. unfold header_of, lookup_txn; cbn. by rewrite lookup_insert_eq. Qed.
End Live.

(** Evaluation of everything but the primitives above. *)
Ltac norm :=
  cbv beta iota zeta fix delta
      [bind ret defer emit log set_clock set_agent set_scope set_status set_body
       clock agent scope status body trace for_range
       FromContext nrgin_Transaction WriteString Sleep Attach
       StartSegment Segment_End SetName AddAttribute NoticeError Ignore
       MessageProducerSegment_End StartExternalSegment ExternalSegment_End
       RecordCustomEvent RecordCustomMetric BrowserTimingHeader_of
       seg_StartTime seg_Name notnil
       mps_StartTime mps_Library mps_DestinationType mps_DestinationName
       es_StartTime es_Request rq_method rq_url http_NewRequest http_Do
       run_chain gin_Logger gin_Recovery endpoint nrgin_Middleware chain_of handler_of
       EndpointAccessTransaction index versionHandler noticeError noticeErrorWithAttributes
       customEvent setName addAttribute ignore segments message external browser
       rand_Intn Nat.eqb
       ag_txns ag_next ag_events ag_metrics ag_sink ag_browser].

Ltac prim :=
  first [ rewrite api_live | rewrite StartSegmentNow_live | rewrite end_segment_live
        | rewrite Txn_End_live | rewrite Application_live | rewrite header_of_live ].

Ltac exec := norm; repeat (prim; norm).

(** Evaluation of the primitives too, for references that are nil or
    unknown. *)
Ltac norm_all :=
  cbv beta iota zeta fix delta
      [bind ret defer emit log set_clock set_agent set_scope set_status set_body
       clock agent scope status body trace for_range
       FromContext nrgin_Transaction WriteString Sleep Attach
       StartSegment Segment_End SetName AddAttribute NoticeError Ignore
       MessageProducerSegment_End StartExternalSegment ExternalSegment_End
       RecordCustomEvent RecordCustomMetric BrowserTimingHeader_of
       Application api on_txn lookup_txn StartSegmentNow end_segment Txn_End
       header_of WithTags zero_start st_txn st_id
       seg_StartTime seg_Name notnil
       mps_StartTime mps_Library mps_DestinationType mps_DestinationName
       es_StartTime es_Request rq_method rq_url http_NewRequest http_Do
       handler_of response_text timing_script
       EndpointAccessTransaction index versionHandler noticeError noticeErrorWithAttributes
       customEvent setName addAttribute ignore segments message external browser
       async async_handler async_goroutine run_threads step enabled fst snd
       rand_Intn Nat.eqb
       ag_txns ag_next ag_events ag_metrics ag_sink ag_browser].

(** ** The routing table *)

Lemma routes_table nr :
  eng_routes (routes nr)
  = List.map (fun r => ("GET", path_of r, chain_of nr r)) all_routes.
Proof.
  cbv [routes GET Use gin_Default eng_routes eng_Handlers List.app all_routes
       List.map chain_of path_of handler_of].
  reflexivity.
Qed.

Lemma routes_Handlers nr :
  eng_Handlers (routes nr) = [gin_Logger; gin_Recovery; nrgin_Middleware nr].
Proof. cbv [routes GET Use gin_Default eng_routes eng_Handlers List.app]. reflexivity. Qed.

Lemma find_route_path nr r :
  find_route "GET" (path_of r) (routes nr) = Some (chain_of nr r).
Proof.
  unfold find_route. rewrite routes_table.
  destruct r;
    cbv [all_routes List.map List.find fst snd path_of String.eqb Ascii.eqb
         Bool.eqb andb fmap option_fmap option_map];
    reflexivity.
Qed.

Lemma route_chain nr r env :
  req_method env = "GET" -> req_path env = path_of r ->
  ServeHTTP (routes nr) env = run_chain (chain_of nr r) env.
Proof.
  intros Hm Hp. unfold ServeHTTP. by rewrite Hm, Hp, find_route_path.
Qed.

(** ** What every handler does, whatever the request scope holds *)

Ltac finish :=
  eexists _, _; split; [reflexivity |];
  repeat split;
  first [ reflexivity
        | by rewrite app_nil_r
        | rewrite <- ?app_assoc; reflexivity
        | by rewrite ?append_assoc
        | done
        | solve [simpl; repeat (constructor; try done)] ].

Lemma bind_Ok {A B} (m : M A) (k : A -> M B) w a w1 :
  m w = Ok a w1 -> bind m k w = k a w1.
Proof. unfold bind. by intros ->. Qed.

Lemma quiet_step_refl txn w : quiet_step txn w w [].
Proof. unfold quiet_step. rewrite app_nil_r. repeat split; done. Qed.

Lemma quiet_step_trans txn w w1 w2 e1 e2 :
  quiet_step txn w w1 e1 -> quiet_step txn w1 w2 e2 -> quiet_step txn w w2 (e1 ++ e2).
Proof.
  intros (Hs1 & Ht1 & Hb1 & Hc1 & Hr1 & Hf1 & Ha1) (Hs2 & Ht2 & Hb2 & Hc2 & Hr2 & Hf2 & Ha2).
  rewrite Hs1 in Hf2.
  repeat split; try congruence.
  - by rewrite Hr2, Hr1, app_assoc.
  - by apply Forall_app.
  - intros Hn. by rewrite Ha2, Ha1.
Qed.

Lemma for_range_quiet {A} txn (f : A -> M unit) :
  (forall x w, exists w' evs, f x w = Ok tt w' /\ quiet_step txn w w' evs) ->
  forall xs w, exists w' evs, for_range xs f w = Ok tt w' /\ quiet_step txn w w' evs.
Proof.
  intros Hf xs. induction xs as [|x xs IH]; intros w.
  - exists w, []. split; [reflexivity | apply quiet_step_refl].
  - destruct (Hf x w) as (w1 & e1 & H1 & Q1).
    destruct (IH w1) as (w2 & e2 & H2 & Q2).
    exists w2, (e1 ++ e2). split; [| by eapply quiet_step_trans].
    change (for_range (x :: xs) f w) with (bind (f x) (fun _ => for_range xs f) w).
    by rewrite (bind_Ok _ _ _ _ _ H1).
Qed.

Lemma record_metric_quiet txn (v : string) w :
  exists w' evs,
    (if notnil txn then
       let* app := Application txn in
       RecordCustomMetric app "HeaderLength" (String.length v)
     else ret tt) w = Ok tt w' /\ quiet_step txn w w' evs.
Proof.
  destruct w as [c [m n ev me sk br] sc st b tr].
  destruct txn as [id|]; unfold quiet_step; norm_all; finish.
Qed.

Lemma customMetric_run env w :
  exists w' evs, customMetric env w = Ok tt w' /\ handler_post R_custommetric env w w' evs.
Proof.
  unfold customMetric.
  pose (txn := scope w).
  destruct (for_range_quiet txn _
              (fun kv w0 => for_range_quiet txn _
                  (fun v w1 => record_metric_quiet txn v w1) (snd kv) w0)
              (req_header env) (log (EvRetrieve txn) w)) as (w1 & e1 & H1 & Q1).
  destruct Q1 as (Hs & Ht & Hb & Hc & Hr & Hf & Ha).
  exists (set_body (body w1 +:+ "custom metric recorded") w1), (EvRetrieve txn :: e1).
  split.
  - rewrite (bind_Ok _ _ w txn (log (EvRetrieve txn) w) eq_refl).
    by rewrite (bind_Ok _ _ _ _ _ H1).
  - unfold handler_post. cbn in *. repeat split; try done.
    + by rewrite Hr, <- app_assoc.
    + by constructor.
    + by rewrite Hb.
Qed.

(** The schedules of a handler and one goroutine, up to [n] choices in
    favour of the goroutine. *)
Ltac case_sched n s :=
  lazymatch n with
  | O => idtac
  | S ?k =>
      let b := fresh "b" in
      let s' := fresh "s" in
      destruct s as [|b s']; [| destruct b; [case_sched k s' |]]
  end.

Lemma async_run env w :
  exists w' evs, async env w = Ok tt w' /\ handler_post R_async env w w' evs.
Proof.
  destruct w as [c [m n ev me sk br] sc st b tr].
  unfold handler_post, async. change (0 + 1) with 1.
  generalize (sched env) as s. intros s.
  destruct sc as [id|]; case_sched 4 s; norm_all; finish.
Qed.

Lemma handler_run r env w :
  exists w' evs, handler_of r env w = Ok tt w' /\ handler_post r env w w' evs.
Proof.
  destruct r; try apply customMetric_run; try apply async_run.
  all: destruct w as [c [m n ev me sk br] sc st b tr].
  all: destruct sc as [id|]; unfold handler_post; norm_all.
  all: try finish.
  all: try (destruct (rand_source env mod 2); finish).
  all: try (destruct (http_result env); finish).
  all: destruct (m !! id); [destruct br|]; cbn; finish.
Qed.

Lemma timing_script_absent r w : scope w = None -> timing_script r w = EmptyString.
Proof. intros H. destruct r; try reflexivity. unfold timing_script. by rewrite H. Qed.

(** ** A request served by the router of [main] *)

Lemma Attach_eq name w : Attach name w = Ok (ag_next (agent w)) (attached name w).
Proof. reflexivity. Qed.

Lemma serve_run nr r env w :
  req_method env = "GET" -> req_path env = path_of r ->
  exists w' evs,
    ServeHTTP (routes nr) env w = Ok tt w' /\
    trace w' = trace w ++ [EvAttach (ag_next (agent w)); EvHandlerEnter] ++ evs
                       ++ [EvHandlerExit; EvFinalize (ag_next (agent w))] /\
    Forall (inner_event (Some (ag_next (agent w)))) evs /\
    scope w' = Some (ag_next (agent w)) /\ status w' = status w /\
    body w' = body w +:+ served_script r w +:+ response_text r env.
Proof.
  intros Hm Hp. rewrite (route_chain nr r env Hm Hp).
  unfold chain_of. cbn [run_chain]. unfold gin_Logger, gin_Recovery, nrgin_Middleware.
  set (name := req_method env +:+ " " +:+ req_path env).
  rewrite (bind_Ok _ _ _ _ _ (Attach_eq name w)).
  destruct (handler_run r env (log EvHandlerEnter (attached name w)))
    as (w3 & evs & H3 & Hs & Ht & Hr & Hf & Hb & _).
  unfold defer, endpoint.
  rewrite (bind_Ok (emit EvHandlerEnter) _ (attached name w) tt _ eq_refl).
  rewrite (bind_Ok _ _ _ _ _ H3).
  rewrite (bind_Ok (emit EvHandlerExit) _ w3 tt _ eq_refl).
  unfold ret, Txn_End.
  eexists _, evs. split; [reflexivity |].
  cbn in Hs, Ht, Hr, Hf, Hb |- *.
  repeat split; try done.
  - rewrite Hr. by rewrite <- !app_assoc.
  - rewrite Hb. f_equal. f_equal.
    destruct r; try reflexivity.
    unfold timing_script, served_script, header_of, lookup_txn. cbn.
    by rewrite lookup_insert_eq.
Qed.

(** * Properties of the service *)

(** C1. With no Context attached to the request scope, every handler
    returns normally, leaves the monitoring state exactly as it was (each
    SDK call it makes is a no-op), keeps the response status, and writes its
    text.  That text is its normal one: the same request served through the
    router, with a Context attached, gets the same text, the browser page
    with its timing script in front. *)
Theorem absent_context_is_harmless (r : Route) (env : Env) (w : World) :
  scope w = None ->
  (exists w',
     handler_of r env w = Ok tt w' /\
     agent w' = agent w /\
     scope w' = None /\
     status w' = status w /\
     body w' = body w +:+ response_text r env) /\
  (forall nr, req_method env = "GET" -> req_path env = path_of r ->
     exists w2,
       ServeHTTP (routes nr) env w = Ok tt w2 /\
       body w2 = body w +:+ served_script r w +:+ response_text r env).
Proof.
  intros Hnil. split.
  - destruct (handler_run r env w) as (w' & evs & Hrun & Hs & Ht & _ & _ & Hb & Ha).
    exists w'. repeat split; try done.
    + by apply Ha.
    + congruence.
    + by rewrite Hb, timing_script_absent.
  - intros nr Hm Hp.
    destruct (serve_run nr r env w Hm Hp) as (w2 & evs & Hrun & _ & _ & _ & _ & Hb).
    by exists w2.
Qed.

Lemma absent_context_is_harmless_witness :
  (exists w',
     handler_of R_segments (sample_env "/segments") init_world = Ok tt w' /\
     agent w' = agent init_world /\
     scope w' = None /\
     status w' = status init_world /\
     body w' = "segments!") /\
  (forall nr, "GET" = "GET" -> "/segments" = "/segments" ->
     exists w2,
       ServeHTTP (routes nr) (sample_env "/segments") init_world = Ok tt w2 /\
       body w2 = "segments!").
Proof.
  apply (absent_context_is_harmless R_segments (sample_env "/segments") init_world).
  reflexivity.
Defined.

(** C2. In a request served through the router of [main], every Retrieve
    the handler performs, by [FromContext] or by [nrgin_Transaction], finds
    the Context the middleware attached, and the scope is still bound to it
    when the request ends. *)
Theorem retrieve_returns_attached (nr : NrApp) (r : Route) (env : Env) (w : World) :
  req_method env = "GET" -> req_path env = path_of r ->
  exists w' id evs,
    ServeHTTP (routes nr) env w = Ok tt w' /\
    trace w' = trace w ++ EvAttach id :: evs /\
    (forall found, EvRetrieve found ∈ evs -> found = Some id) /\
    FromContext w' = Ok (Some id) (log (EvRetrieve (Some id)) w') /\
    nrgin_Transaction w' = Ok (Some id) (log (EvRetrieve (Some id)) w').
Proof.
  intros Hm Hp.
  destruct (serve_run nr r env w Hm Hp) as (w' & evs & Hrun & Htr & Hin & Hsc & _).
  exists w', (ag_next (agent w)), (EvHandlerEnter :: evs ++ [EvHandlerExit; EvFinalize (ag_next (agent w))]).
  repeat split; try done.
  - intros found Hel.
    apply elem_of_cons in Hel as [Hel | Hel]; [done |].
    apply elem_of_app in Hel as [Hel | Hel].
    + rewrite Forall_forall in Hin. exact (Hin _ Hel).
    + apply elem_of_cons in Hel as [Hel | Hel]; [done |].
      apply elem_of_cons in Hel as [Hel | Hel]; [done |].
      by apply elem_of_nil in Hel.
  - unfold FromContext. by rewrite Hsc.
  - unfold nrgin_Transaction. by rewrite Hsc.
Qed.

Lemma retrieve_returns_attached_witness :
  exists w' id evs,
    ServeHTTP (routes sample_app) (sample_env "/txn") init_world = Ok tt w' /\
    trace w' = trace init_world ++ EvAttach id :: evs /\
    (forall found, EvRetrieve found ∈ evs -> found = Some id) /\
    FromContext w' = Ok (Some id) (log (EvRetrieve (Some id)) w') /\
    nrgin_Transaction w' = Ok (Some id) (log (EvRetrieve (Some id)) w').
Proof.
  apply (retrieve_returns_attached sample_app R_txn (sample_env "/txn") init_world);
    reflexivity.
Defined.

(** C7. When [NewApplication] fails, [main] prints the error and exits
    with status 1, and no server is started; a non-zero exit has no other
    cause; when it succeeds and the listener opens, the router is served on
    port 8000. *)
Theorem startup_failure_is_fatal (s : Startup) :
  (forall err, NewApplication s NewApplication_config = inr err ->
     main s = Exit 1 [Error_string err]) /\
  (forall code out, main s = Exit code out -> code <> 0 ->
     exists err, NewApplication s NewApplication_config = inr err) /\
  (forall nr, NewApplication s NewApplication_config = inl nr ->
     listen_error s = None -> main s = Serving ":8000" (routes nr)).
Proof.
  unfold main, NewApplication_config.
  destruct (NewApplication s _) as [nr | err] eqn:Happ.
  - repeat split.
    + intros err Herr. discriminate Herr.
    + intros code out Hmain Hcode. destruct (listen_error s); [| discriminate Hmain].
      injection Hmain as <- _. done.
    + intros nr' [= <-] ->. reflexivity.
  - repeat split.
    + intros err' [= <-]. reflexivity.
    + intros code out _ _. by exists err.
    + intros nr Hnr. discriminate Hnr.
Qed.

Lemma startup_failure_is_fatal_witness :
  main failing_startup = Exit 1 ["license length is not 40"].
Proof.
  exact (proj1 (startup_failure_is_fatal failing_startup)
               (ErrorsNew "license length is not 40") eq_refl).
Defined.

(** C8. A failed outbound call in the external handler is written to the
    response body as plain text and goes no further: the handler returns,
    the call is made once, the error is not noticed on the Context, and the
    request served through the router completes with its status unchanged.
    No handler, on any input, fails its request. *)
Theorem outbound_error_is_reported_inline (nr : NrApp) (env : Env) (w : World) (err : GoError) :
  http_result env = inr err ->
  req_method env = "GET" -> req_path env = "/external" ->
  (exists w1 s,
     external env w = Ok tt w1 /\
     body w1 = body w +:+ Error_string err /\
     status w1 = status w /\
     trace w1 = trace w ++ [EvRetrieve (scope w); EvSegStart s;
                            EvOutbound "https://api.github.com/users/defunkt";
                            EvSegEnd s]) /\
  (exists w2,
     ServeHTTP (routes nr) env w = Ok tt w2 /\
     body w2 = body w +:+ Error_string err /\
     status w2 = status w) /\
  (forall r env0 w0, exists w3,
     handler_of r env0 w0 = Ok tt w3 /\ status w3 = status w0).
Proof.
  intros Herr Hm Hp. split; [| split].
  - destruct w as [c [m n ev me sk br] sc st b tr].
    norm_all. rewrite Herr.
    eexists _, _. split; [reflexivity |]. cbn.
    repeat split. by rewrite <- !app_assoc.
  - destruct (serve_run nr R_external env w Hm Hp) as (w2 & evs & Hrun & _ & _ & _ & Hst & Hb).
    exists w2. repeat split; try done.
    rewrite Hb. cbn. by rewrite Herr.
  - intros r env0 w0.
    destruct (handler_run r env0 w0) as (w3 & evs & Hrun & _ & Hst & _).
    by exists w3.
Qed.

Lemma outbound_error_is_reported_inline_witness :
  (exists w1 s,
     external failing_env init_world = Ok tt w1 /\
     body w1 = body init_world +:+ "dial tcp: no such host" /\
     status w1 = status init_world /\
     trace w1 = trace init_world ++ [EvRetrieve (scope init_world); EvSegStart s;
                            EvOutbound "https://api.github.com/users/defunkt";
                            EvSegEnd s]) /\
  (exists w2,
     ServeHTTP (routes sample_app) failing_env init_world = Ok tt w2 /\
     body w2 = body init_world +:+ "dial tcp: no such host" /\
     status w2 = status init_world) /\
  (forall r env0 w0, exists w3,
     handler_of r env0 w0 = Ok tt w3 /\ status w3 = status w0).
Proof.
  apply (outbound_error_is_reported_inline sample_app failing_env init_world
           (NetError "dial tcp: no such host")); reflexivity.
Defined.

(** C9. For a request to a registered route, the chain the router runs is
    the monitoring middleware followed by the handler, Attach is the first
    thing the request does, the handler's code starts after it, and nothing
    later in the request attaches again. *)
Theorem attach_once_before_handler (nr : NrApp) (r : Route) (env : Env) (w : World) :
  req_method env = "GET" -> req_path env = path_of r ->
  find_route (req_method env) (req_path env) (routes nr)
  = Some [gin_Logger; gin_Recovery; nrgin_Middleware nr; endpoint (handler_of r)] /\
  exists w' id evs,
    ServeHTTP (routes nr) env w = Ok tt w' /\
    trace w' = trace w ++ EvAttach id :: EvHandlerEnter :: evs
                       ++ [EvHandlerExit; EvFinalize id] /\
    Forall (inner_event (Some id)) evs.
Proof.
  intros Hm Hp. split.
  - rewrite Hm, Hp. apply find_route_path.
  - destruct (serve_run nr r env w Hm Hp) as (w' & evs & Hrun & Htr & Hin & _).
    by exists w', (ag_next (agent w)), evs.
Qed.

Lemma attach_once_before_handler_witness :
  find_route "GET" "/set_name" (routes sample_app)
  = Some [gin_Logger; gin_Recovery; nrgin_Middleware sample_app; endpoint setName] /\
  exists w' id evs,
    ServeHTTP (routes sample_app) (sample_env "/set_name") init_world = Ok tt w' /\
    trace w' = trace init_world ++ EvAttach id :: EvHandlerEnter :: evs
                       ++ [EvHandlerExit; EvFinalize id] /\
    Forall (inner_event (Some id)) evs.
Proof.
  apply (attach_once_before_handler sample_app R_set_name (sample_env "/set_name") init_world);
    reflexivity.
Defined.

(** C10. The browser handler calls [BrowserTimingHeader] on whatever the
    lookup returned, nil included, and [WithTags] on its result; it never
    panics, writes the script only when [WithTags] is not nil, and always
    ends the body with its own text.  With a nil transaction the body is
    that text alone. *)
Theorem browser_is_nil_safe (env : Env) (w : World) :
  (exists w',
     browser env w = Ok tt w' /\
     trace w' = trace w ++ [EvRetrieve (scope w); EvApi OpBrowserTimingHeader (scope w)] /\
     agent w' = agent w /\
     body w' = match WithTags (header_of (scope w) (agent w)) with
               | Some js => (body w +:+ js) +:+ "browser header page"
               | None => body w +:+ "browser header page"
               end) /\
  (exists w',
     browser env (set_scope None w) = Ok tt w' /\
     body w' = body w +:+ "browser header page").
Proof.
  destruct w as [c [m n ev me sk br] sc st b tr]. split.
  - norm_all.
    destruct sc as [id|]; [destruct (m !! id); [destruct br |] |];
      cbn; eexists; (split; [reflexivity |]); cbn; by rewrite <- ?app_assoc.
  - norm_all. eexists. split; reflexivity.
Qed.

(** C3. A request to the segments endpoint opens "f1" and then "f2", ends
    "f2" and then "f1", each once and before the Context is finalized; the
    Context the sink receives has no open segment and records "f2" as the
    child of "f1". *)
Theorem segments_closed_once_nested (nr : NrApp) (env : Env) (w : World) :
  req_method env = "GET" -> req_path env = "/segments" ->
  let id := ag_next (agent w) in
  let f1 := mkStart (Some id) 1 in
  let f2 := mkStart (Some id) 2 in
  exists w' t,
    ServeHTTP (routes nr) env w = Ok tt w' /\
    trace w' = trace w ++ [EvAttach id; EvHandlerEnter; EvRetrieve (Some id);
                           EvSegStart f1; EvSegStart f2; EvSegEnd f2; EvSegEnd f1;
                           EvHandlerExit; EvFinalize id] /\
    ag_sink (agent w') = ag_sink (agent w) ++ [(id, t)] /\
    txn_open t = [] /\
    txn_closed t = [mkClosed 2 (KBasic "f2") (clock w) (clock w + 10) (Some 1);
                    mkClosed 1 (KBasic "f1") (clock w) (clock w + 10 + 15) None].
Proof.
  intros Hm Hp id f1 f2. subst id f1 f2.
  rewrite (route_chain nr R_segments env Hm Hp).
  destruct w as [c [m n ev me sk br] sc st b tr].
  exec. eexists _, _. split; [reflexivity |]. cbn.
  repeat split. by rewrite <- !app_assoc.
Qed.

Lemma segments_closed_once_nested_witness :
  exists w' t,
    ServeHTTP (routes sample_app) (sample_env "/segments") init_world = Ok tt w' /\
    trace w' = [EvAttach 0; EvHandlerEnter; EvRetrieve (Some 0);
                EvSegStart (mkStart (Some 0) 1); EvSegStart (mkStart (Some 0) 2);
                EvSegEnd (mkStart (Some 0) 2); EvSegEnd (mkStart (Some 0) 1);
                EvHandlerExit; EvFinalize 0] /\
    ag_sink (agent w') = [(0, t)] /\
    txn_open t = [] /\
    txn_closed t = [mkClosed 2 (KBasic "f2") 0 10 (Some 1);
                    mkClosed 1 (KBasic "f1") 0 25 None].
Proof.
  apply (segments_closed_once_nested sample_app (sample_env "/segments") init_world);
    reflexivity.
Defined.

(** ** Threads, one step at a time *)

Lemma run_threads_S fuel sched wg main goroutine w :
  run_threads (S fuel) sched wg main goroutine w =
  match main with
  | Halt => Ok tt w
  | _ =>
      let run_main sched' :=
        (let* r := step wg main in
         run_threads fuel sched' (snd r) (fst r) goroutine) w in
      let run_go sched' :=
        (let* r := step wg goroutine in
         run_threads fuel sched' (snd r) main (fst r)) w in
      match enabled wg main, enabled wg goroutine with
      | false, false => Blocked w
      | true, false => run_main sched
      | false, true => run_go sched
      | true, true =>
          match sched with
          | true :: sched' => run_go sched'
          | false :: sched' => run_main sched'
          | [] => run_main []
          end
      end
  end.
Proof. reflexivity. Qed.

Ltac thread_step :=
  rewrite run_threads_S;
  cbv beta iota zeta delta [enabled Nat.eqb];
  try (erewrite bind_Ok by (cbv [step]; exec; reflexivity);
       cbv beta iota delta [fst snd]).

(** C5. In a request to the async endpoint the goroutine receives the very
    reference the handler retrieved: under every schedule all segment calls
    are made on the Context the middleware attached, the handler's
    [wg.Wait] lets it go on only after the goroutine is done, and the
    Context the sink receives holds the goroutine's "async" segment, 100 ms
    long, next to the handler's "wg.Wait" segment, none left open; the
    response is written after that. *)
Theorem async_segment_joins_same_context (nr : NrApp) (env : Env) (w : World) :
  req_method env = "GET" -> req_path env = "/async" ->
  let id := ag_next (agent w) in
  exists w' t evs,
    ServeHTTP (routes nr) env w = Ok tt w' /\
    trace w' = trace w ++ evs /\
    Forall (on_context id) evs /\
    ag_sink (agent w') = ag_sink (agent w) ++ [(id, t)] /\
    txn_open t = [] /\
    cs_kind <$> txn_closed t = [KBasic "async"; KBasic "wg.Wait"] /\
    (cs_start <$> head (txn_closed t)) = Some (clock w) /\
    (cs_end <$> head (txn_closed t)) = Some (clock w + 100) /\
    body w' = body w +:+ "done!".
Proof.
  intros Hm Hp id. subst id.
  rewrite (route_chain nr R_async env Hm Hp).
  destruct w as [c [m n ev me sk br] sc st b tr].
  cbv [chain_of handler_of run_chain gin_Logger gin_Recovery nrgin_Middleware endpoint].
  rewrite (bind_Ok _ _ _ _ _ (Attach_eq _ _)).
  unfold defer, attached. 
  cbv beta iota zeta delta [bind emit log set_scope set_agent clock agent scope status body trace ag_txns ag_next ag_events ag_metrics ag_sink ag_browser async FromContext async_handler async_goroutine].
  change (0 + 1) with 1.
  generalize (sched env) as s. intros s.
  case_sched 4 s; do 9 thread_step; exec.
  all: eexists _, _, _; (split; [reflexivity |]); cbn.
  all: repeat split; try (rewrite <- !app_assoc; reflexivity).
  all: repeat (constructor; try done).
Qed.

Lemma async_segment_joins_same_context_witness :
  exists w' t evs,
    ServeHTTP (routes sample_app) (sample_env "/async") init_world = Ok tt w' /\
    trace w' = trace init_world ++ evs /\
    Forall (on_context 0) evs /\
    ag_sink (agent w') = ag_sink (agent init_world) ++ [(0, t)] /\
    txn_open t = [] /\
    cs_kind <$> txn_closed t = [KBasic "async"; KBasic "wg.Wait"] /\
    (cs_start <$> head (txn_closed t)) = Some 0 /\
    (cs_end <$> head (txn_closed t)) = Some 100 /\
    body w' = body init_world +:+ "done!".
Proof.
  apply (async_segment_joins_same_context sample_app (sample_env "/async") init_world);
    reflexivity.
Defined.

(** ** Mutations of a Context *)

Lemma on_txn_sink f txn a : ag_sink (on_txn f txn a) = ag_sink a.
Proof. destruct txn as [id|]; [| done]. unfold on_txn. by destruct (ag_txns a !! id). Qed.

Lemma on_txn_ignored f txn a id :
  (forall t, txn_ignored t = true -> txn_ignored (f t) = true) ->
  ignored_or_gone id a -> ignored_or_gone id (on_txn f txn a).
Proof.
  intros Hf Hig. destruct txn as [i|]; [| done].
  unfold on_txn, ignored_or_gone in *.
  destruct (ag_txns a !! i) as [t|] eqn:Hi; [| done].
  cbn. destruct (decide (i = id)) as [-> | Hne].
  - rewrite lookup_insert_eq. rewrite Hi in Hig. by apply Hf.
  - by rewrite lookup_insert_ne.
Qed.

Lemma on_txn_sets_ignored f id a :
  (forall t, txn_ignored (f t) = true) -> ignored_or_gone id (on_txn f (Some id) a).
Proof.
  intros Hf. unfold on_txn, ignored_or_gone.
  destruct (ag_txns a !! id) as [t|] eqn:Hi.
  - cbn. by rewrite lookup_insert_eq.
  - by rewrite Hi.
Qed.

Lemma close_open_ignored k sid now t :
  txn_ignored (close_open k sid now t) = txn_ignored t.
Proof. unfold close_open. by destruct (find_open sid t). Qed.

Lemma mutate_keeps txn a w :
  exists w',
    mutate txn a w = Ok tt w' /\
    ag_sink (agent w') = ag_sink (agent w) /\
    (forall id, ignored_or_gone id (agent w) -> ignored_or_gone id (agent w')) /\
    (a = MIgnore -> forall id, txn = Some id -> ignored_or_gone id (agent w')).
Proof.
  destruct a; (eexists; split; [reflexivity |]); cbn;
    rewrite ?on_txn_sink; (split; [reflexivity |]); split; try done.
  all: try (intros id Hig; apply on_txn_ignored; [| done]; intros t Ht; try done).
  - intros _ id ->. by apply on_txn_sets_ignored.
  - by rewrite close_open_ignored.
Qed.

Lemma for_range_app {A} (xs ys : list A) (f : A -> M unit) w :
  for_range (xs ++ ys) f w = (for_range xs f >> for_range ys f) w.
Proof.
  revert w. induction xs as [|x xs IH]; intros w; [reflexivity |].
  cbn [for_range app]. unfold bind. destruct (f x w) as [[] w1| |]; [| done..].
  rewrite IH. reflexivity.
Qed.

Lemma mutations_keep txn (l : list Mutation) w :
  exists w',
    for_range l (mutate txn) w = Ok tt w' /\
    ag_sink (agent w') = ag_sink (agent w) /\
    (forall id, ignored_or_gone id (agent w) -> ignored_or_gone id (agent w')).
Proof.
  revert w. induction l as [|a l IH]; intros w.
  - by exists w.
  - destruct (mutate_keeps txn a w) as (w1 & H1 & Hs1 & Hi1 & _).
    destruct (IH w1) as (w2 & H2 & Hs2 & Hi2).
    exists w2. cbn [for_range]. rewrite (bind_Ok _ _ _ _ _ H1).
    repeat split; [done | congruence | auto].
Qed.

Lemma Txn_End_ignored id w :
  ignored_or_gone id (agent w) ->
  ag_sink (agent (world_of (Txn_End (Some id) w))) = ag_sink (agent w).
Proof.
  unfold ignored_or_gone, Txn_End, report. cbn.
  destruct (ag_txns (agent w) !! id) as [t|]; [| done].
  by intros ->.
Qed.

(** Once [Ignore()] has been called through a reference, no mutation
    before or after it brings the Context back into the sink. *)
Lemma ignored_stays_out txn (before after : list Mutation) w :
  ag_sink (agent (world_of
     ((for_range (before ++ MIgnore :: after) (mutate txn) >> Txn_End txn) w)))
  = ag_sink (agent w).
Proof.
  destruct (mutations_keep txn before w) as (w1 & H1 & Hs1 & _).
  destruct (mutate_keeps txn MIgnore w1) as (w2 & H2 & Hs2 & _ & Hig2).
  destruct (mutations_keep txn after w2) as (w3 & H3 & Hs3 & Hi3).
  assert (Hrun : for_range (before ++ MIgnore :: after) (mutate txn) w = Ok tt w3).
  { rewrite for_range_app, (bind_Ok _ _ _ _ _ H1).
    cbn [for_range]. by rewrite (bind_Ok _ _ _ _ _ H2). }
  rewrite (bind_Ok _ _ _ _ _ Hrun).
  destruct txn as [id|].
  - rewrite Txn_End_ignored; [congruence |]. apply Hi3. by apply Hig2.
  - cbn. congruence.
Qed.

(** C6, as worded, fails: with no Context and the coin on heads nothing is
    ignored, yet the body says "ignoring the transaction". *)
Lemma ignore_claim_as_stated_fails : ~ ignore_claim_as_stated.
Proof.
  intros H. destruct (H heads_env init_world) as [_ Hnot].
  specialize (Hnot eq_refl). discriminate Hnot.
Qed.

Lemma new_events_app w w' evs : trace w' = trace w ++ evs -> new_events w w' = evs.
Proof. unfold new_events. intros ->. by rewrite drop_app_length. Qed.

(** C6, amended. The body follows the coin: "ignoring the transaction" on
    heads, "not ignoring the transaction" on tails.  [Ignore()] is invoked
    exactly on heads with a Context attached, which is every heads request
    the router serves; the Context of such a request does not reach the
    sink, the Context of a tails request does; and a Context on which
    [Ignore()] was invoked stays out of the sink whatever else was done to
    it. *)
Theorem ignore_excludes_and_reports (nr : NrApp) (env : Env) (w : World) :
  req_method env = "GET" -> req_path env = "/ignore" ->
  let heads := Nat.eqb 0 (rand_source env mod 2) in
  let text := if heads then "ignoring the transaction"
              else "not ignoring the transaction" in
  (exists w1,
     ignore env w = Ok tt w1 /\
     body w1 = body w +:+ text /\
     ignore_invoked (new_events w w1) = heads && notnil (scope w)) /\
  (exists w2,
     ServeHTTP (routes nr) env w = Ok tt w2 /\
     body w2 = body w +:+ text /\
     ignore_invoked (new_events w w2) = heads /\
     ag_sink (agent w2) =
       if heads then ag_sink (agent w)
       else ag_sink (agent w)
              ++ [(ag_next (agent w), new_txn (req_method env +:+ " " +:+ req_path env))]) /\
  (forall txn before after w0,
     ag_sink (agent (world_of
        ((for_range (before ++ MIgnore :: after) (mutate txn) >> Txn_End txn) w0)))
     = ag_sink (agent w0)).
Proof.
  intros Hm Hp heads text. subst heads text. repeat split.
  - destruct w as [c [m n ev me sk br] sc st b tr].
    destruct sc as [id|]; norm_all; destruct (rand_source env mod 2);
      (eexists; split; [reflexivity |]); (split; [reflexivity |]);
      (erewrite new_events_app; [| cbn; rewrite <- ?app_assoc; reflexivity || by rewrite app_nil_r]);
      reflexivity.
  - rewrite (route_chain nr R_ignore env Hm Hp).
    destruct w as [c [m n ev me sk br] sc st b tr].
    exec; destruct (rand_source env mod 2); exec;
      (eexists; split; [reflexivity |]); (split; [reflexivity |]);
      (erewrite new_events_app; [| cbn; rewrite <- ?app_assoc; reflexivity]);
      split; reflexivity.
  - intros txn before after w0. apply ignored_stays_out.
Qed.

Lemma ignore_excludes_and_reports_witness :
  (exists w1,
     ignore heads_env init_world = Ok tt w1 /\
     body w1 = "ignoring the transaction" /\
     ignore_invoked (new_events init_world w1) = false) /\
  (exists w2,
     ServeHTTP (routes sample_app) heads_env init_world = Ok tt w2 /\
     body w2 = "ignoring the transaction" /\
     ignore_invoked (new_events init_world w2) = true /\
     ag_sink (agent w2) = []) /\
  (forall txn before after w0,
     ag_sink (agent (world_of
        ((for_range (before ++ MIgnore :: after) (mutate txn) >> Txn_End txn) w0)))
     = ag_sink (agent w0)).
Proof.
  apply (ignore_excludes_and_reports sample_app heads_env init_world); reflexivity.
Defined.

(** ** Intervals *)

Lemma seg_ok_later now now' t : now <= now' -> seg_ok now t -> seg_ok now' t.
Proof.
  intros Hle [Hc Ho]. split; [done |].
  eapply Forall_impl; [exact Ho |]. cbn. intros o Hs. lia.
Qed.

Lemma Forall_List_filter {A} (P : A -> Prop) (f : A -> bool) (l : list A) :
  Forall P l -> Forall P (List.filter f l).
Proof.
  induction 1 as [|x l Hx Hl IH]; cbn; [constructor |].
  destruct (f x); [by constructor | done].
Qed.

Lemma push_open_ok now t : seg_ok now t -> seg_ok now (push_open now t).
Proof. intros [Hc Ho]. split; cbn; [done |]. constructor; cbn; [lia | done]. Qed.

Lemma close_open_ok k sid now t : seg_ok now t -> seg_ok now (close_open k sid now t).
Proof.
  intros [Hc Ho]. unfold close_open.
  destruct (find_open sid t) as [o|] eqn:Hfind; [| done].
  split; cbn.
  - apply Forall_app. split; [done |].
    constructor; [| constructor]. cbn.
    unfold find_open in Hfind. apply List.find_some in Hfind as [Hin _].
    rewrite List.Forall_forall in Ho. by apply Ho.
  - by apply Forall_List_filter.
Qed.

Lemma on_txn_ok now f txn a :
  (forall t, seg_ok now t -> seg_ok now (f t)) ->
  map_Forall (fun _ t => seg_ok now t) (ag_txns a) ->
  map_Forall (fun _ t => seg_ok now t) (ag_txns (on_txn f txn a)).
Proof.
  intros Hf Hall. destruct txn as [id|]; [| done].
  unfold on_txn. destruct (ag_txns a !! id) as [t|] eqn:Hid; [| done].
  cbn. apply map_Forall_insert_2; [| done].
  apply Hf. exact (Hall _ _ Hid).
Qed.

Lemma mutate_ok txn a w :
  intervals_ok w ->
  exists w', mutate txn a w = Ok tt w' /\ intervals_ok w'.
Proof.
  intros [Hlive Hsink].
  destruct a; (eexists; split; [reflexivity |]); split; cbn;
    rewrite ?on_txn_sink; try done.
  1-4: by apply on_txn_ok.
  - apply on_txn_ok; [apply push_open_ok | done].
  - apply on_txn_ok; [apply close_open_ok | done].
  - eapply map_Forall_impl; [exact Hlive |]. cbn. intros _ t. apply seg_ok_later. lia.
Qed.

Lemma perform_ok c w :
  intervals_ok w ->
  exists w', perform c w = Ok tt w' /\ intervals_ok w'.
Proof.
  intros Hok. destruct c as [txn a | name | txn].
  - by apply mutate_ok.
  - destruct Hok as [Hlive Hsink].
    eexists; split; [reflexivity |]. split; cbn; [| done].
    apply map_Forall_insert_2; [| done]. split; constructor.
  - destruct Hok as [Hlive Hsink]. destruct txn as [id|]; [| by exists w].
    eexists; split; [reflexivity |]. unfold report. cbn.
    destruct (ag_txns (agent w) !! id) as [t|] eqn:Hid; [| done].
    split; cbn.
    + by apply map_Forall_delete.
    + destruct (txn_ignored t); [done |].
      apply Forall_app. split; [done |].
      constructor; [| constructor]. cbn. exact (proj1 (Hlive _ _ Hid)).
Qed.

Lemma run_script_ok script w :
  intervals_ok w ->
  exists w', run_script script w = Ok tt w' /\ intervals_ok w'.
Proof.
  revert w. induction script as [|c script IH]; intros w Hok.
  - by exists w.
  - destruct (perform_ok c w Hok) as (w1 & H1 & Hok1).
    destruct (IH w1 Hok1) as (w2 & H2 & Hok2).
    exists w2. split; [| done].
    unfold run_script. cbn [for_range]. by rewrite (bind_Ok _ _ _ _ _ H1).
Qed.

Lemma init_world_ok : intervals_ok init_world.
Proof. split; [apply map_Forall_empty | constructor]. Qed.

(** C4. Whatever is done through the SDK, in any order and through any
    references, every interval recorded in a live or reported Context ends
    no earlier than it starts; and the Contexts the segments and message
    endpoints report hold such intervals, one per Begin/End pair. *)
Theorem segment_end_not_before_start :
  (forall (script : list Call) (w0 : World) (id : nat) (t : Txn) (c : ClosedSeg),
     intervals_ok w0 ->
     ag_txns (agent (world_of (run_script script w0))) !! id = Some t \/
       (id, t) ∈ ag_sink (agent (world_of (run_script script w0))) ->
     c ∈ txn_closed t ->
     cs_start c <= cs_end c) /\
  (forall (nr : NrApp) (env : Env) (w : World) (r : Route),
     r = R_segments \/ r = R_message ->
     req_method env = "GET" -> req_path env = path_of r ->
     exists w' t,
       ServeHTTP (routes nr) env w = Ok tt w' /\
       ag_sink (agent w') = ag_sink (agent w) ++ [(ag_next (agent w), t)] /\
       length (txn_closed t) = (match r with R_segments => 2 | _ => 1 end) /\
       Forall (fun c => cs_start c <= cs_end c) (txn_closed t)).
Proof.
  split.
  - intros script w0 id t c Hok Hwhere Hc.
    destruct (run_script_ok script w0 Hok) as (w & Hrun & [Hlive Hsink]).
    rewrite Hrun in Hwhere. cbn in Hwhere.
    assert (Hall : Forall (fun c => cs_start c <= cs_end c) (txn_closed t)).
    { destruct Hwhere as [Hid | Hin].
      - exact (proj1 (Hlive _ _ Hid)).
      - rewrite Forall_forall in Hsink. exact (Hsink _ Hin). }
    rewrite Forall_forall in Hall. by apply Hall.
  - intros nr env w r Hr Hm Hp.
    rewrite (route_chain nr r env Hm Hp).
    destruct w as [c [m n ev me sk br] sc st b tr].
    destruct Hr as [-> | ->]; exec;
      (eexists _, _; split; [reflexivity |]); cbn;
      (split; [reflexivity |]); (split; [reflexivity |]);
      repeat constructor; cbn; lia.
Qed.

Lemma segment_end_not_before_start_witness :
  cs_start (mkClosed 1 (KMessage "Library" MessageQueue "Destination name") 0 20 None)
  <= cs_end (mkClosed 1 (KMessage "Library" MessageQueue "Destination name") 0 20 None).
Proof.
  apply (proj1 segment_end_not_before_start message_script init_world 0
           (mkTxn "GET /message" ∅ [] []
              [mkClosed 1 (KMessage "Library" MessageQueue "Destination name") 0 20 None]
              false 2)).
  - exact init_world_ok.
  - right. vm_compute. apply list_elem_of_here.
  - apply list_elem_of_here.
Defined.

(** * Further properties of the handlers and the routing table *)

Lemma find_route_in nr method path l x :
  List.find (fun rt => String.eqb method (fst (fst rt)) && String.eqb path (snd (fst rt)))
            (List.map (fun r => ("GET", path_of r, chain_of nr r)) l) = Some x ->
  method = "GET" /\ exists r, path = path_of r /\ x = ("GET", path_of r, chain_of nr r).
Proof.
  induction l as [|r l IH]; cbn [List.map List.find fst snd]; [done |].
  destruct (String.eqb_spec method "GET") as [-> | Hm]; cbn [andb]; [| exact IH].
  destruct (String.eqb_spec path (path_of r)) as [-> | Hp]; [| exact IH].
  intros [= <-]. split; [done |]. by exists r.
Qed.

Lemma find_route_table nr method path :
  find_route method path (routes nr)
  = snd <$> List.find (fun rt => String.eqb method (fst (fst rt))
                                  && String.eqb path (snd (fst rt)))
              (List.map (fun r => ("GET", path_of r, chain_of nr r)) all_routes).
Proof. unfold find_route. by rewrite routes_table. Qed.

Lemma find_route_sound nr method path chain :
  find_route method path (routes nr) = Some chain ->
  method = "GET" /\ exists r, path = path_of r /\ chain = chain_of nr r.
Proof.
  rewrite find_route_table. intros Hfound.
  destruct (List.find _ _) as [x|] eqn:Hfind; [| done].
  destruct (find_route_in _ _ _ _ _ Hfind) as (Hm & r & Hp & ->).
  split; [done |]. exists r. split; [done |].
  cbn in Hfound. by injection Hfound as <-.
Qed.

(** X1. The routing table of [main] is exact: every registered path leads
    to the chain of its own handler, no two routes share a path, and a
    lookup that succeeds is a GET of one of the fifteen registered paths. *)
Theorem routing_table_exact (nr : NrApp) :
  (forall r, find_route "GET" (path_of r) (routes nr) = Some (chain_of nr r)) /\
  (forall r1 r2, path_of r1 = path_of r2 -> r1 = r2) /\
  (forall method path chain,
     find_route method path (routes nr) = Some chain ->
     method = "GET" /\ exists r, path = path_of r /\ chain = chain_of nr r) /\
  length (eng_routes (routes nr)) = 15.
Proof.
  split; [| split; [| split]].
  - apply find_route_path.
  - intros r1 r2. destruct r1, r2; intros Heq; first [reflexivity | discriminate Heq].
  - apply find_route_sound.
  - rewrite routes_table. reflexivity.
Qed.

(** X3. The external handler ends its segment before it looks at the
    outcome of the call: whether the call fails or not, the request makes
    one outbound call and reports a Context with exactly one closed external
    segment for GET on the fixed URL, and the body is the upstream body on
    success and the error text on failure. *)
Theorem external_segment_always_recorded (nr : NrApp) (env : Env) (w : World) :
  req_method env = "GET" -> req_path env = "/external" ->
  let id := ag_next (agent w) in
  let s := mkStart (Some id) 1 in
  let url := "https://api.github.com/users/defunkt" in
  exists w' t,
    ServeHTTP (routes nr) env w = Ok tt w' /\
    trace w' = trace w ++ [EvAttach id; EvHandlerEnter; EvRetrieve (Some id);
                           EvSegStart s; EvOutbound url; EvSegEnd s;
                           EvHandlerExit; EvFinalize id] /\
    ag_sink (agent w') = ag_sink (agent w) ++ [(id, t)] /\
    txn_open t = [] /\
    txn_closed t = [mkClosed 1 (KExternal "GET" url) (clock w) (clock w) None] /\
    body w' = body w +:+ match http_result env with
                         | inl resp_Body => resp_Body
                         | inr err => Error_string err
                         end.
Proof.
  intros Hm Hp id s url. subst id s url.
  rewrite (route_chain nr R_external env Hm Hp).
  destruct w as [c [m n ev me sk br] sc st b tr].
  exec. destruct (http_result env); exec;
    (eexists _, _; split; [reflexivity |]); cbn;
    repeat split; by rewrite <- !app_assoc.
Qed.

Lemma external_segment_always_recorded_witness :
  exists w' t,
    ServeHTTP (routes sample_app) failing_env init_world = Ok tt w' /\
    trace w' = [EvAttach 0; EvHandlerEnter; EvRetrieve (Some 0);
                EvSegStart (mkStart (Some 0) 1);
                EvOutbound "https://api.github.com/users/defunkt";
                EvSegEnd (mkStart (Some 0) 1);
                EvHandlerExit; EvFinalize 0] /\
    ag_sink (agent w') = [(0, t)] /\
    txn_open t = [] /\
    txn_closed t = [mkClosed 1 (KExternal "GET" "https://api.github.com/users/defunkt")
                             0 0 None] /\
    body w' = "dial tcp: no such host".
Proof.
  apply (external_segment_always_recorded sample_app failing_env init_world); reflexivity.
Defined.

(** X4. A name set by a handler replaces the name the middleware gave the
    Context: the Context reported for the txn route is named "test-txn", the
    one for the set_name route "other-name", and nothing else of the Context
    differs from what the middleware created. *)
Theorem handler_name_replaces_route_name (nr : NrApp) (r : Route) (env : Env) (w : World) :
  r = R_txn \/ r = R_set_name ->
  req_method env = "GET" -> req_path env = path_of r ->
  exists w',
    ServeHTTP (routes nr) env w = Ok tt w' /\
    ag_sink (agent w') =
      ag_sink (agent w)
      ++ [(ag_next (agent w),
           with_name (match r with R_txn => "test-txn" | _ => "other-name" end)
                     (new_txn (req_method env +:+ " " +:+ req_path env)))] /\
    body w' = body w +:+ response_text r env.
Proof.
  intros Hr Hm Hp. rewrite (route_chain nr r env Hm Hp).
  destruct w as [c [m n ev me sk br] sc st b tr].
  destruct Hr as [-> | ->]; exec; (eexists; split; [reflexivity |]); by cbn.
Qed.

Lemma handler_name_replaces_route_name_witness :
  exists w',
    ServeHTTP (routes sample_app) (sample_env "/set_name") init_world = Ok tt w' /\
    ag_sink (agent w') = [(0, with_name "other-name" (new_txn "GET /set_name"))] /\
    body w' = "changing the transaction's name".
Proof.
  apply (handler_name_replaces_route_name sample_app R_set_name
           (sample_env "/set_name") init_world); [by right | reflexivity..].
Defined.

(** X5. The Context reported for the add_attribute route carries exactly
    the two attributes the handler adds: "myString" is "hello", "myInt" is
    123, and no other key is present. *)
Theorem add_attribute_reports_both (nr : NrApp) (env : Env) (w : World) :
  req_method env = "GET" -> req_path env = "/add_attribute" ->
  exists w' t,
    ServeHTTP (routes nr) env w = Ok tt w' /\
    ag_sink (agent w') = ag_sink (agent w) ++ [(ag_next (agent w), t)] /\
    txn_attrs t !! "myString" = Some (VStr "hello") /\
    txn_attrs t !! "myInt" = Some (VInt 123) /\
    (forall k, k <> "myString" -> k <> "myInt" -> txn_attrs t !! k = None) /\
    size (txn_attrs t) = 2.
Proof.
  intros Hm Hp. rewrite (route_chain nr R_add_attribute env Hm Hp).
  destruct w as [c [m n ev me sk br] sc st b tr].
  exec. eexists _, _. split; [reflexivity |].
  cbn [agent ag_sink txn_attrs with_attr new_txn].
  split; [reflexivity |]. split; [reflexivity |]. split; [reflexivity |].
  split; [| reflexivity].
  intros k H1 H2. unfold with_attr, new_txn. cbn [txn_attrs].
  rewrite lookup_insert_ne by done. rewrite lookup_insert_ne by done.
  apply lookup_empty.
Qed.

Lemma add_attribute_reports_both_witness :
  exists w' t,
    ServeHTTP (routes sample_app) (sample_env "/add_attribute") init_world = Ok tt w' /\
    ag_sink (agent w') = ag_sink (agent init_world) ++ [(ag_next (agent init_world), t)] /\
    txn_attrs t !! "myString" = Some (VStr "hello") /\
    txn_attrs t !! "myInt" = Some (VInt 123) /\
    (forall k, k <> "myString" -> k <> "myInt" -> txn_attrs t !! k = None) /\
    size (txn_attrs t) = 2.
Proof.
  apply (add_attribute_reports_both sample_app (sample_env "/add_attribute") init_world);
    reflexivity.
Defined.

(** X6. Each of the two notice_error routes reports a Context with exactly
    one noticed error, the one the handler builds, and answers with
    "noticing an error"; the error with attributes keeps its class and its
    "error no." attribute. *)
Theorem notice_error_reports_one (nr : NrApp) (r : Route) (env : Env) (w : World) :
  r = R_notice_error \/ r = R_notice_error_with_attributes ->
  req_method env = "GET" -> req_path env = path_of r ->
  exists w' t,
    ServeHTTP (routes nr) env w = Ok tt w' /\
    ag_sink (agent w') = ag_sink (agent w) ++ [(ag_next (agent w), t)] /\
    txn_errors t =
      [match r with
       | R_notice_error => ErrorsNew "my error message"
       | _ => NrError "something went very wrong" "errors are aggregated by class"
                      {[ "error no." := VInt 97232 ]}
       end] /\
    body w' = body w +:+ "noticing an error".
Proof.
  intros Hr Hm Hp. rewrite (route_chain nr r env Hm Hp).
  destruct w as [c [m n ev me sk br] sc st b tr].
  destruct Hr as [-> | ->]; exec; (eexists _, _; split; [reflexivity |]); by cbn.
Qed.

Lemma notice_error_reports_one_witness :
  exists w' t,
    ServeHTTP (routes sample_app) (sample_env "/notice_error") init_world = Ok tt w' /\
    ag_sink (agent w') = [(0, t)] /\
    txn_errors t = [ErrorsNew "my error message"] /\
    body w' = "noticing an error".
Proof.
  apply (notice_error_reports_one sample_app R_notice_error
           (sample_env "/notice_error") init_world); [by left | reflexivity..].
Defined.

(** X7. The custom_event route hands exactly one event of type
    "my_event_type" to the monitoring subsystem, with the four fields the
    handler gives it, and the event is not part of the Context: the Context
    it reports is the one the middleware created, untouched. *)
Theorem custom_event_recorded_once (nr : NrApp) (env : Env) (w : World) :
  req_method env = "GET" -> req_path env = "/custom_event" ->
  exists w' payload,
    ServeHTTP (routes nr) env w = Ok tt w' /\
    ag_events (agent w') = ag_events (agent w) ++ [("my_event_type", payload)] /\
    payload !! "message" = Some (VStr "hello world") /\
    payload !! "Float" = Some (VFloat "0.603") /\
    payload !! "Int" = Some (VInt 123) /\
    payload !! "Bool" = Some (VBool true) /\
    size payload = 4 /\
    ag_sink (agent w') =
      ag_sink (agent w)
      ++ [(ag_next (agent w), new_txn (req_method env +:+ " " +:+ req_path env))].
Proof.
  intros Hm Hp. rewrite (route_chain nr R_custom_event env Hm Hp).
  destruct w as [c [m n ev me sk br] sc st b tr].
  exec. eexists _, _. split; [reflexivity |]. cbn. repeat split.
Qed.

Lemma custom_event_recorded_once_witness :
  exists w' payload,
    ServeHTTP (routes sample_app) (sample_env "/custom_event") init_world = Ok tt w' /\
    ag_events (agent w') = [("my_event_type", payload)] /\
    payload !! "message" = Some (VStr "hello world") /\
    payload !! "Float" = Some (VFloat "0.603") /\
    payload !! "Int" = Some (VInt 123) /\
    payload !! "Bool" = Some (VBool true) /\
    size payload = 4 /\
    ag_sink (agent w') = [(0, new_txn "GET /custom_event")].
Proof.
  apply (custom_event_recorded_once sample_app (sample_env "/custom_event") init_world);
    reflexivity.
Defined.

Lemma async_clock env w :
  exists w', async env w = Ok tt w' /\ clock w' = clock w + 100.
Proof.
  destruct w as [c [m n ev me sk br] sc st b tr].
  unfold async. change (0 + 1) with 1.
  generalize (sched env) as s. intros s.
  case_sched 4 s; norm_all; (eexists; split; [reflexivity |]); reflexivity.
Qed.

Lemma customMetric_shape env w :
  exists w1 e1,
    customMetric env w = Ok tt (set_body (body w1 +:+ "custom metric recorded") w1) /\
    quiet_step (scope w) (log (EvRetrieve (scope w)) w) w1 e1.
Proof.
  unfold customMetric.
  pose (txn := scope w).
  destruct (for_range_quiet txn _
              (fun kv w0 => for_range_quiet txn _
                  (fun v w1 => record_metric_quiet txn v w1) (snd kv) w0)
              (req_header env) (log (EvRetrieve txn) w)) as (w1 & e1 & H1 & Q1).
  exists w1, e1. split; [| done].
  rewrite (bind_Ok _ _ w txn (log (EvRetrieve txn) w) eq_refl).
  by rewrite (bind_Ok _ _ _ _ _ H1).
Qed.

(** X2. Every handler takes a fixed time, whatever the monitoring state,
    the coin, the outcome of the outbound call or the schedule: the segments
    handler 45 ms, the message handler 20 ms, the async handler the 100 ms
    its goroutine sleeps (it never answers before the goroutine is done),
    and every other handler none. *)
Theorem handler_duration (r : Route) (env : Env) (w : World) :
  clock (world_of (handler_of r env w)) = clock w + duration r.
Proof.
  destruct r; cbn [handler_of duration];
    lazymatch goal with
    | |- context [async _ _] =>
        destruct (async_clock env w) as (w' & Hrun & Hc); rewrite Hrun; exact Hc
    | |- context [customMetric _ _] =>
        destruct (customMetric_shape env w) as (w1 & e1 & Hrun & Q); rewrite Hrun;
        destruct Q as (_ & _ & _ & Hc & _); cbn in *; lia
    | _ => idtac
    end.
  all: destruct w as [c [m n ev me sk br] sc st b tr].
  all: destruct sc as [id|]; norm_all.
  all: try (cbn; lia).
  all: try (destruct (rand_source env mod 2); cbn; lia).
  all: try (destruct (http_result env); cbn; lia).
  all: destruct (m !! id); [destruct br |]; cbn; lia.
Qed.

(** ** The loop of the customMetric handler *)

Lemma add_metrics_nil a : add_metrics [] a = a.
Proof. destruct a. unfold add_metrics. cbn. by rewrite app_nil_r. Qed.

Lemma add_metrics_app l1 l2 a : add_metrics l2 (add_metrics l1 a) = add_metrics (l1 ++ l2) a.
Proof. unfold add_metrics. cbn. by rewrite app_assoc. Qed.

Lemma for_range_add {A} (I : World -> Prop) (f : A -> M unit)
    (g : A -> list (string * nat)) :
  (forall x w, I w -> exists w',
      f x w = Ok tt w' /\ agent w' = add_metrics (g x) (agent w) /\
      body w' = body w /\ I w') ->
  forall xs w, I w -> exists w',
      for_range xs f w = Ok tt w' /\ agent w' = add_metrics (flat_map g xs) (agent w) /\
      body w' = body w /\ I w'.
Proof.
  intros Hf xs. induction xs as [|x xs IH]; intros w Hw.
  - exists w. cbn. by rewrite add_metrics_nil.
  - destruct (Hf x w Hw) as (w1 & H1 & Ha1 & Hb1 & Hw1).
    destruct (IH w1 Hw1) as (w2 & H2 & Ha2 & Hb2 & Hw2).
    exists w2. cbn [for_range flat_map]. rewrite (bind_Ok _ _ _ _ _ H1).
    repeat split; try done.
    + by rewrite Ha2, Ha1, add_metrics_app.
    + congruence.
Qed.

Lemma record_metric_step txn o (v : string) w :
  lookup_txn txn (agent w) = o ->
  exists w',
    (if notnil txn then
       let* app := Application txn in
       RecordCustomMetric app "HeaderLength" (String.length v)
     else ret tt) w = Ok tt w' /\
    agent w' = add_metrics (if notnil o then [header_metric v] else []) (agent w) /\
    body w' = body w /\
    lookup_txn txn (agent w') = o.
Proof.
  intros <-. destruct w as [c [m n ev me sk br] sc st b tr].
  destruct txn as [id|]; norm_all; cbn [lookup_txn agent ag_txns].
  - destruct (m !! id) eqn:Hid; (eexists; split; [reflexivity |]); cbn;
      rewrite ?Hid, ?add_metrics_nil; done.
  - eexists; split; [reflexivity |]. cbn. by rewrite add_metrics_nil.
Qed.

Lemma flat_map_if {A B} (c : bool) (h : A -> B) (l : list A) :
  flat_map (fun x => if c then [h x] else []) l = if c then List.map h l else [].
Proof. destruct c; induction l as [|x l IH]; cbn; [done | by f_equal | done | done]. Qed.

Lemma flat_map_flat_map {A B C} (f : A -> list B) (g : B -> list C) (l : list A) :
  flat_map (fun x => flat_map g (f x)) l = flat_map g (flat_map f l).
Proof.
  induction l as [|x l IH]; cbn; [done |].
  by rewrite IH, List.flat_map_app.
Qed.

Lemma customMetric_effect (env : Env) (w : World) :
  exists w',
    customMetric env w = Ok tt w' /\
    agent w' = add_metrics (if notnil (lookup_txn (scope w) (agent w))
                            then List.map header_metric (header_values env) else [])
                           (agent w) /\
    body w' = body w +:+ "custom metric recorded".
Proof.
  pose (txn := scope w). pose (o := lookup_txn txn (agent w)).
  destruct (for_range_add (fun w0 => lookup_txn txn (agent w0) = o) _
              (fun kv => flat_map (fun v => if notnil o then [header_metric v] else [])
                                  (snd kv))
              (fun kv w0 Hw0 => for_range_add _ _ _
                  (fun v w1 Hw1 => record_metric_step txn o v w1 Hw1) (snd kv) w0 Hw0)
              (req_header env) (log (EvRetrieve txn) w) eq_refl)
    as (w1 & H1 & Ha & Hb & _).
  exists (set_body (body w1 +:+ "custom metric recorded") w1). split.
  - unfold customMetric.
    rewrite (bind_Ok _ _ w txn (log (EvRetrieve txn) w) eq_refl).
    by rewrite (bind_Ok _ _ _ _ _ H1).
  - rewrite (flat_map_flat_map snd), flat_map_if in Ha.
    cbn [agent set_body body]. rewrite Ha, Hb. by cbn.
Qed.

(** X8. The customMetric handler records one "HeaderLength" metric per
    header value, in the order it ranges over them and with the length of
    the value, when the request scope holds a live Context, and none when it
    holds no Context or a finished one; it touches no Context, event or
    report, and then writes its text. *)
Theorem custom_metric_per_header_value (env : Env) (w : World) :
  exists w',
    customMetric env w = Ok tt w' /\
    ag_metrics (agent w') =
      ag_metrics (agent w)
      ++ (if notnil (lookup_txn (scope w) (agent w))
          then List.map header_metric (header_values env) else []) /\
    ag_txns (agent w') = ag_txns (agent w) /\
    ag_events (agent w') = ag_events (agent w) /\
    ag_sink (agent w') = ag_sink (agent w) /\
    body w' = body w +:+ "custom metric recorded".
Proof.
  destruct (customMetric_effect env w) as (w' & Hrun & Ha & Hb).
  exists w'. rewrite Ha. by cbn.
Qed.

(** ** The life of a request's Context *)

Lemma serve_with nr r env w w3 :
  req_method env = "GET" -> req_path env = path_of r ->
  handler_of r env
    (log EvHandlerEnter (attached (req_method env +:+ " " +:+ req_path env) w)) = Ok tt w3 ->
  ServeHTTP (routes nr) env w
  = Ok tt (log (EvFinalize (ag_next (agent w)))
             (set_agent (report (ag_next (agent w)) (agent w3)) (log EvHandlerExit w3))).
Proof.
  intros Hm Hp H3. rewrite (route_chain nr r env Hm Hp).
  unfold chain_of. cbn [run_chain]. unfold gin_Logger, gin_Recovery, nrgin_Middleware.
  rewrite (bind_Ok _ _ _ _ _ (Attach_eq _ w)).
  unfold defer, endpoint.
  rewrite (bind_Ok (emit EvHandlerEnter) _ _ tt _ eq_refl).
  rewrite (bind_Ok _ _ _ _ _ H3).
  rewrite (bind_Ok (emit EvHandlerExit) _ w3 tt _ eq_refl).
  reflexivity.
Qed.

Lemma handler_on_attached r env c m n ev me sk br st b tr name :
  exists w3 t' ev' me',
    handler_of r env (mkWorld c (mkAgent (<[n := new_txn name]> m) (S n) ev me sk br)
                              (Some n) st b tr) = Ok tt w3 /\
    agent w3 = mkAgent (<[n := t']> m) (S n) ev' me' sk br /\
    txn_open t' = [] /\
    txn_ignored t' = marks_ignored r env.
Proof.
  destruct r; cbn [handler_of marks_ignored];
    lazymatch goal with
    | |- context [async _ _] =>
        unfold async;
        rewrite (bind_Ok FromContext _ _ _ _ eq_refl);
        cbv beta iota zeta delta [log clock agent scope status body trace
                                  async_handler async_goroutine];
        change (0 + 1) with 1;
        generalize (sched env) as s; intros s;
        case_sched 4 s; do 9 thread_step
    | |- context [customMetric _ _] =>
        match goal with
        | |- context [customMetric env ?W] =>
            destruct (customMetric_effect env W) as (w3 & Hrun & Ha & _);
            exists w3, (new_txn name); eexists _, _; split; [exact Hrun |];
            split; [rewrite Ha; reflexivity | done]
        end
    | |- context [browser _ _] => exec; destruct br; cbn [WithTags fmap option_fmap option_map]
    | _ => exec; unfold coinFlip; try destruct (rand_source env mod 2);
           try destruct (http_result env); exec
    end.
  all: eexists _, _, _, _; split; [reflexivity |]; cbn; repeat split; done.
Qed.

(** X9. Every request to a registered route, served from a state in which
    the next Context identity is free, finalizes its Context exactly once:
    afterwards the set of live Contexts is what it was, the identity counter
    has advanced by one, the sink has received exactly one Context with no
    segment left open (none at all when the ignore handler marked it), and
    nothing else was reported. *)
Theorem request_context_reported_once (nr : NrApp) (r : Route) (env : Env) (w : World) :
  req_method env = "GET" -> req_path env = path_of r ->
  ag_txns (agent w) !! ag_next (agent w) = None ->
  exists w' t,
    ServeHTTP (routes nr) env w = Ok tt w' /\
    ag_txns (agent w') = ag_txns (agent w) /\
    ag_next (agent w') = S (ag_next (agent w)) /\
    ag_sink (agent w') =
      (if marks_ignored r env then ag_sink (agent w)
       else ag_sink (agent w) ++ [(ag_next (agent w), t)]) /\
    txn_open t = [].
Proof.
  intros Hm Hp Hfresh.
  destruct w as [c [m n ev me sk br] sc st b tr]. cbn in Hfresh.
  destruct (handler_on_attached r env c m n ev me sk br st b
              ((tr ++ [EvAttach n]) ++ [EvHandlerEnter])
              (req_method env +:+ " " +:+ req_path env))
    as (w3 & t' & ev' & me' & H3 & Ha & Hopen & Hign).
  exists (log (EvFinalize n) (set_agent (report n (agent w3)) (log EvHandlerExit w3))), t'.
  split; [exact (serve_with nr r env (mkWorld c (mkAgent m n ev me sk br) sc st b tr)
                           w3 Hm Hp H3) |].
  cbn [agent log set_agent]. rewrite Ha. unfold report. cbn [ag_txns].
  rewrite lookup_insert_eq. cbn. rewrite delete_insert_eq, (delete_id _ _ Hfresh), Hign.
  by destruct (marks_ignored r env).
Qed.

Lemma request_context_reported_once_witness :
  exists w' t,
    ServeHTTP (routes sample_app) (sample_env "/async") init_world = Ok tt w' /\
    ag_txns (agent w') = ag_txns (agent init_world) /\
    ag_next (agent w') = 1 /\
    ag_sink (agent w') = [(0, t)] /\
    txn_open t = [].
Proof.
  apply (request_context_reported_once sample_app R_async (sample_env "/async") init_world);
    reflexivity.
Defined.


(** ** What a handler leaves alone *)

Lemma handler_on_live r env c m n ev me sk br st b tr id t :
  exists w3 t' ev' me',
    handler_of r env (mkWorld c (mkAgent (<[id := t]> m) n ev me sk br)
                              (Some id) st b tr) = Ok tt w3 /\
    agent w3 = mkAgent (<[id := t']> m) n ev' me' sk br.
Proof.
  destruct r; cbn [handler_of];
    lazymatch goal with
    | |- context [async _ _] =>
        unfold async;
        rewrite (bind_Ok FromContext _ _ _ _ eq_refl);
        cbv beta iota zeta delta [log clock agent scope status body trace
                                  async_handler async_goroutine];
        change (0 + 1) with 1;
        generalize (sched env) as s; intros s;
        case_sched 4 s; do 9 thread_step
    | |- context [customMetric _ _] =>
        match goal with
        | |- context [customMetric env ?W] =>
            destruct (customMetric_effect env W) as (w3 & Hrun & Ha & _);
            exists w3, t; eexists _, _; split; [exact Hrun |];
            rewrite Ha; reflexivity
        end
    | |- context [browser _ _] => exec; destruct br; cbn [WithTags fmap option_fmap option_map]
    | _ => exec; try destruct (rand_source env mod 2);
           try destruct (http_result env); exec
    end.
  all: eexists _, _, _, _; split; reflexivity.
Qed.

Lemma handler_on_stale r env w id :
  scope w = Some id -> ag_txns (agent w) !! id = None ->
  exists w', handler_of r env w = Ok tt w' /\ agent w' = agent w.
Proof.
  intros Hsc Hid. destruct r; cbn [handler_of];
    lazymatch goal with
    | |- context [customMetric _ _] =>
        destruct (customMetric_effect env w) as (w' & Hrun & Ha & _);
        exists w'; split; [exact Hrun |];
        rewrite Ha, Hsc; cbn [lookup_txn]; rewrite Hid; apply add_metrics_nil
    | _ => idtac
    end.
  all: destruct w as [c [m n ev me sk br] sc st b tr]; cbn in Hsc, Hid; subst sc.
  all: try (unfold async; change (0 + 1) with 1;
            generalize (sched env) as s; intros s; case_sched 4 s).
  all: norm_all; repeat (rewrite Hid; norm_all).
  all: try destruct (rand_source env mod 2); try destruct (http_result env).
  all: repeat (rewrite Hid; norm_all).
  all: eexists; split; reflexivity.
Qed.

(** X10. A handler touches no Context but the one in its request scope: it
    neither attaches nor finalizes, so the identity counter and the sink are
    as they were, the same Contexts are live afterwards, and every Context
    other than its own is unchanged, whether its own is live, finished or
    absent. *)
Theorem handlers_touch_only_their_context (r : Route) (env : Env) (w : World) :
  exists w',
    handler_of r env w = Ok tt w' /\
    ag_next (agent w') = ag_next (agent w) /\
    ag_sink (agent w') = ag_sink (agent w) /\
    (forall j, Some j <> scope w -> ag_txns (agent w') !! j = ag_txns (agent w) !! j) /\
    (forall j, is_Some (ag_txns (agent w') !! j) <-> is_Some (ag_txns (agent w) !! j)).
Proof.
  destruct (scope w) as [id|] eqn:Hsc.
  - destruct (ag_txns (agent w) !! id) as [t|] eqn:Hid.
    + destruct w as [c [m n ev me sk br] sc st b tr]. cbn in Hsc, Hid. subst sc.
      rewrite <- (insert_id m id t Hid).
      destruct (handler_on_live r env c m n ev me sk br st b tr id t)
        as (w3 & t' & ev' & me' & H3 & Ha).
      exists w3. split; [exact H3 |]. rewrite Ha. cbn.
      split; [reflexivity |]. split; [reflexivity |]. split.
      * intros j Hj. rewrite !lookup_insert_ne; congruence.
      * intros j. destruct (decide (id = j)) as [-> | Hne].
        -- rewrite !lookup_insert_eq. split; intros _; by eexists.
        -- by rewrite !lookup_insert_ne.
    + destruct (handler_on_stale r env w id Hsc Hid) as (w' & Hrun & Ha).
      exists w'. by rewrite Ha.
  - destruct (handler_run r env w) as (w' & evs & Hrun & _ & _ & _ & _ & _ & Ha).
    exists w'. by rewrite (Ha Hsc).
Qed.

(** X11. The message handler reports a Context with exactly one segment, a
    message-producer segment for library "Library" and the queue
    "Destination name"; the segment starts when the handler starts and ends,
    by the deferred [End], after the 20 ms sleep and the write. *)
Theorem message_segment_recorded (nr : NrApp) (env : Env) (w : World) :
  req_method env = "GET" -> req_path env = "/message" ->
  exists w' t,
    ServeHTTP (routes nr) env w = Ok tt w' /\
    ag_sink (agent w') = ag_sink (agent w) ++ [(ag_next (agent w), t)] /\
    txn_open t = [] /\
    txn_closed t = [mkClosed 1 (KMessage "Library" MessageQueue "Destination name")
                             (clock w) (clock w + 20) None] /\
    body w' = body w +:+ "producing a message queue message" /\
    clock w' = clock w + 20.
Proof.
  intros Hm Hp. rewrite (route_chain nr R_message env Hm Hp).
  destruct w as [c [m n ev me sk br] sc st b tr].
  exec. eexists _, _. split; [reflexivity |]. by cbn.
Qed.

Lemma message_segment_recorded_witness :
  exists w' t,
    ServeHTTP (routes sample_app) (sample_env "/message") init_world = Ok tt w' /\
    ag_sink (agent w') = [(0, t)] /\
    txn_open t = [] /\
    txn_closed t = [mkClosed 1 (KMessage "Library" MessageQueue "Destination name")
                             0 20 None] /\
    body w' = "producing a message queue message" /\
    clock w' = 20.
Proof.
  apply (message_segment_recorded sample_app (sample_env "/message") init_world);
    reflexivity.
Defined.

(** ** Segments are balanced *)

Lemma filter_fresh sid (l : list OpenSeg) :
  Forall (fun o => os_id o < sid) l ->
  List.filter (fun o' => negb (Nat.eqb (os_id o') sid)) l = l.
Proof.
  induction 1 as [|o l Ho Hl IH]; cbn; [done |].
  destruct (Nat.eqb_spec (os_id o) sid) as [Heq | Hne]; [lia |].
  cbn. by rewrite IH.
Qed.

Lemma filter_fresh_S sid (l : list OpenSeg) :
  Forall (fun o => os_id o < sid) l ->
  List.filter (fun o' => negb (Nat.eqb (os_id o') (S sid))) l = l.
Proof.
  intros H. apply filter_fresh. eapply Forall_impl; [exact H |]. cbn. lia.
Qed.

Lemma eqb_S_self n : Nat.eqb (S n) n = false.
Proof. apply Nat.eqb_neq. lia. Qed.

Lemma eqb_self_S n : Nat.eqb n (S n) = false.
Proof. apply Nat.eqb_neq. lia. Qed.

Ltac close_segments Hfresh :=
  repeat first
    [ progress (unfold close_open at 1, find_open at 1)
    | progress (unfold push_open)
    | progress (cbn [txn_open txn_closed txn_name txn_attrs txn_errors txn_ignored
                     txn_next_seg List.find List.filter os_id os_start os_parent negb])
    | progress (rewrite ?Nat.eqb_refl, ?eqb_S_self, ?eqb_self_S)
    | progress (rewrite ?(filter_fresh _ _ Hfresh), ?(filter_fresh_S _ _ Hfresh)) ].

Lemma handler_balance r env c m n ev me sk br st b tr id t :
  open_fresh t ->
  exists w' t' new,
    handler_of r env (mkWorld c (mkAgent (<[id := t]> m) n ev me sk br)
                              (Some id) st b tr) = Ok tt w' /\
    ag_txns (agent w') !! id = Some t' /\
    txn_open t' = txn_open t /\
    txn_closed t' = txn_closed t ++ new /\
    length new = segments_of r /\
    Forall (fun s => txn_next_seg t <= cs_id s /\ c <= cs_start s <= cs_end s) new /\
    txn_next_seg t' = segments_of r + txn_next_seg t.
Proof.
  intros Hfresh. unfold open_fresh in Hfresh.
  destruct r; cbn [handler_of segments_of];
    lazymatch goal with
    | |- context [async _ _] =>
        unfold async;
        rewrite (bind_Ok FromContext _ _ _ _ eq_refl);
        cbv beta iota zeta delta [log clock agent scope status body trace
                                  async_handler async_goroutine];
        change (0 + 1) with 1;
        generalize (sched env) as s; intros s;
        case_sched 4 s; do 9 thread_step
    | |- context [customMetric _ _] =>
        match goal with
        | |- context [customMetric env ?W] =>
            destruct (customMetric_effect env W) as (w3 & Hrun & Ha & _);
            exists w3, t, []; split; [exact Hrun |];
            rewrite Ha; cbn [scope agent ag_txns lookup_txn add_metrics];
            rewrite ?lookup_insert_eq, ?app_nil_r; repeat split; constructor
        end
    | |- context [browser _ _] => exec; destruct br; cbn [WithTags fmap option_fmap option_map]
    | |- context [ignore _ _] => exec; destruct (rand_source env mod 2); exec
    | |- context [external _ _] => exec; destruct (http_result env); exec
    | _ => exec
    end.
  all: eexists _, _, _; split; [reflexivity |]; cbn [agent ag_txns];
       (split; [apply lookup_insert_eq |]); close_segments Hfresh.
  all: unfold with_name, with_error, with_attr, with_ignore;
       cbn [txn_open txn_closed txn_next_seg].
  all: split; [reflexivity |];
       split; [rewrite <- ?app_assoc; first [reflexivity | symmetry; apply app_nil_r] |];
       split; [reflexivity |];
       split; [repeat constructor; cbn; lia | cbn; lia].
Qed.

(** X12. Segments are balanced in every handler: run on a live Context
    whose open segments were all started earlier, a handler returns and
    leaves the open segments of that Context exactly as it found them; the
    segments it started itself (two in [segments] and [async], one in
    [message] and [external], none elsewhere) are all recorded, under fresh
    identifiers, over intervals that begin no earlier than the handler and do
    not end before they start. *)
Theorem segments_stay_balanced (r : Route) (env : Env) (w : World) (id : nat) (t : Txn) :
  scope w = Some id -> ag_txns (agent w) !! id = Some t -> open_fresh t ->
  exists w' t' new,
    handler_of r env w = Ok tt w' /\
    ag_txns (agent w') !! id = Some t' /\
    txn_open t' = txn_open t /\
    txn_closed t' = txn_closed t ++ new /\
    length new = segments_of r /\
    Forall (fun s => txn_next_seg t <= cs_id s /\ clock w <= cs_start s <= cs_end s) new /\
    txn_next_seg t' = segments_of r + txn_next_seg t.
Proof.
  intros Hsc Hid Hfresh.
  destruct w as [c [m n ev me sk br] sc st b tr]. cbn in Hsc, Hid. subst sc.
  rewrite <- (insert_id m id t Hid).
  apply (handler_balance r env c m n ev me sk br st b tr id t Hfresh).
Qed.

Lemma segments_stay_balanced_witness :
  exists w' t' new,
    handler_of R_segments (sample_env "/segments") wrapped_world = Ok tt w' /\
    ag_txns (agent w') !! 0 = Some t' /\
    txn_open t' = [mkOpen 1 0 None] /\
    txn_closed t' = [] ++ new /\
    length new = 2 /\
    Forall (fun s => 2 <= cs_id s /\ 5 <= cs_start s <= cs_end s) new /\
    txn_next_seg t' = 2 + 2.
Proof.
  apply (segments_stay_balanced R_segments (sample_env "/segments") wrapped_world
                                0 wrapped_txn).
  - reflexivity.
  - apply lookup_insert_eq.
  - repeat constructor.
Defined.
